(** * Real-time fan-out service: services/websocketService.js

    A shallow embedding of the WebSocket service of the parking backend and
    the properties of its connection registry ([connectedUsers]), its
    subscription tracking ([roomSubscriptions]), the Socket.IO rooms the
    broadcasts are resolved against, and the events pushed to clients.

    The module keeps three pieces of module-level state: [io] (the server
    handle, unset until [initializeWebSocket] runs), [connectedUsers] (a
    Map keyed by user id) and [roomSubscriptions] (a Map from room name to a
    Set of user ids).  Handlers mutate them and push events; here they are
    functions in a state-and-exception monad over [State]. *)

From stdpp Require Import base option gmap strings list fin_maps fin_sets.
From Stdlib Require Import ZArith.

Local Open Scope string_scope.
Local Open Scope list_scope.
Local Open Scope Z_scope.

(** ** JavaScript values and events *)

(** The values that appear in event payloads.  [JIsoDate t] stands for the
    string [new Date(t).toISOString()], the ISO-8601 rendering of the
    instant [t] (milliseconds since the epoch). *)
#[local] Set Warnings "-register-all".
Inductive JsVal : Type :=
  | JUndefined
  | JNull
  | JBool (b : bool)
  | JNum (z : Z)
  | JStr (s : string)
  | JIsoDate (t : Z)
  | JArr (items : list JsVal)
  | JObj (fields : list (string * JsVal)).
#[local] Set Warnings "register-all".

(** A plain object: own enumerable properties by name. *)
Abbreviation JsObject := (gmap string JsVal).

(** Object spread: in [{ ...a, k: v }] later properties win. *)
Definition spread (base over : JsObject) : JsObject := over ∪ base.

Record Event : Type := mkEvent {
  name : string;
  payload : JsObject
}.

(** Truthiness of a property that holds a string or is missing. *)
Definition truthy (v : option string) : bool :=
  match v with
  | None => false
  | Some s => negb (String.eqb s "")
  end.

(** ** Sockets *)

(** The fields the authentication middleware writes on the socket
    (lines 42-45), next to the socket's own id. *)
Record Socket : Type := mkSocket {
  id : string;
  userId : string;
  userRole : string;
  userEmail : string;
  userName : string
}.

(** The value stored in [connectedUsers] (lines 59-64). *)
Record ConnInfo : Type := mkConnInfo {
  socketId : string;
  socket : Socket;
  connectedAt : Z;
  role : string
}.

(** ** Module state *)

Record State : Type := mkState {
  (** [let io;] : whether the server handle has been assigned *)
  io : bool;
  (** [const connectedUsers = new Map()] *)
  connectedUsers : gmap string ConnInfo;
  (** [const roomSubscriptions = new Map()] *)
  roomSubscriptions : gmap string (gset string);
  (** Socket.IO: ids of the sockets connected to the server *)
  sockets : gset string;
  (** Socket.IO: room name to the ids of the sockets that joined it *)
  rooms : gmap string (gset string);
  (** what has been pushed to each socket, oldest first *)
  outbox : gmap string (list Event)
}.

Definition init : State :=
  {| io := false; connectedUsers := ∅; roomSubscriptions := ∅;
     sockets := ∅; rooms := ∅; outbox := ∅ |}.

(** Sockets in a room; an unknown room has no members. *)
Definition members (st : State) (room : string) : gset string :=
  default ∅ (rooms st !! room).

(** User ids tracked for a room. *)
Definition tracked (st : State) (room : string) : gset string :=
  default ∅ (roomSubscriptions st !! room).

(** Events pushed to a socket so far. *)
Definition queue (st : State) (sid : string) : list Event :=
  default [] (outbox st !! sid).

(** ** The handler monad: state and exceptions *)

Inductive Outcome (A : Type) : Type :=
  | Returned (a : A) (st : State)
  | Thrown (e : string) (st : State).
Arguments Returned {A} a st.
Arguments Thrown {A} e st.

Definition M (A : Type) : Type := State → Outcome A.

#[export] Instance M_ret : MRet M := λ A a st, Returned a st.
#[export] Instance M_bind : MBind M := λ A B f m st,
  match m st with
  | Returned a st' => f a st'
  | Thrown e st' => Thrown e st'
  end.

Definition get_state : M State := λ st, Returned st st.
Definition modify (f : State → State) : M unit := λ st, Returned tt (f st).
Definition throw {A} (e : string) : M A := λ st, Thrown e st.

(** [try { body } catch (err) { handler }] *)
Definition try_catch {A} (body : M A) (handler : M A) : M A := λ st,
  match body st with
  | Returned a st' => Returned a st'
  | Thrown _ st' => handler st'
  end.

Definition final {A} (o : Outcome A) : State :=
  match o with Returned _ st => st | Thrown _ st => st end.

Definition returns {A} (o : Outcome A) : bool :=
  match o with Returned _ _ => true | Thrown _ _ => false end.

(** [const { ... } = data] throws a TypeError when [data] is undefined. *)
Definition destructure {A} (data : option A) : M A :=
  match data with
  | Some d => mret d
  | None => throw "TypeError"
  end.

(** ** Socket.IO operations used by the service

    These follow the library's documented behaviour: [join] and [leave]
    add and remove the socket's id in a room, [emit] on a socket pushes to
    that socket, [io.to(room).emit] pushes to every socket in the room and
    [io.emit] to every connected socket.  The room every socket holds under
    its own id is never named by this service and is left out. *)

Definition push (targets : gset string) (ev : Event)
    (ob : gmap string (list Event)) : gmap string (list Event) :=
  union_with (λ new old, Some (old ++ new)) (gset_to_gmap [ev] targets) ob.

Definition set_outbox (st : State) (ob : gmap string (list Event)) : State :=
  {| io := io st; connectedUsers := connectedUsers st;
     roomSubscriptions := roomSubscriptions st;
     sockets := sockets st; rooms := rooms st; outbox := ob |}.

Definition set_rooms (st : State) (r : gmap string (gset string)) : State :=
  {| io := io st; connectedUsers := connectedUsers st;
     roomSubscriptions := roomSubscriptions st;
     sockets := sockets st; rooms := r; outbox := outbox st |}.

Definition set_connectedUsers (st : State) (c : gmap string ConnInfo) : State :=
  {| io := io st; connectedUsers := c;
     roomSubscriptions := roomSubscriptions st;
     sockets := sockets st; rooms := rooms st; outbox := outbox st |}.

Definition set_roomSubscriptions (st : State)
    (r : gmap string (gset string)) : State :=
  {| io := io st; connectedUsers := connectedUsers st;
     roomSubscriptions := r;
     sockets := sockets st; rooms := rooms st; outbox := outbox st |}.

Definition set_sockets (st : State) (s : gset string) : State :=
  {| io := io st; connectedUsers := connectedUsers st;
     roomSubscriptions := roomSubscriptions st;
     sockets := s; rooms := rooms st; outbox := outbox st |}.

Definition set_io (st : State) (b : bool) : State :=
  {| io := b; connectedUsers := connectedUsers st;
     roomSubscriptions := roomSubscriptions st;
     sockets := sockets st; rooms := rooms st; outbox := outbox st |}.

(** [socket.emit(name, payload)] *)
Definition socket_emit (s : Socket) (n : string) (p : JsObject) : M unit :=
  modify (λ st, set_outbox st (push {[id s]} (mkEvent n p) (outbox st))).

(** [io.to(room).emit(name, payload)] *)
Definition io_to_emit (room : string) (n : string) (p : JsObject) : M unit :=
  modify (λ st, set_outbox st (push (members st room) (mkEvent n p) (outbox st))).

(** [io.emit(name, payload)] *)
Definition io_emit (n : string) (p : JsObject) : M unit :=
  modify (λ st, set_outbox st (push (sockets st) (mkEvent n p) (outbox st))).

(** [socket.join(room)] *)
Definition socket_join (s : Socket) (room : string) : M unit :=
  modify (λ st, set_rooms st (<[room := {[id s]} ∪ members st room]> (rooms st))).

(** Taking [x] out of a set of subscribers; [None] when nobody is left. *)
Definition without (x : string) (subscribers : gset string)
    : option (gset string) :=
  let subscribers' := subscribers ∖ {[x]} in
  if bool_decide (size subscribers' = 0%nat) then None else Some subscribers'.

(** The same on an entry that may be missing. *)
Definition leave (x : string) (entry : option (gset string))
    : option (gset string) :=
  entry ≫= without x.

(** [socket.leave(room)]: the library drops a room when its last socket
    leaves. *)
Definition socket_leave (s : Socket) (room : string) : M unit :=
  modify (λ st,
    set_rooms st (partial_alter (leave (id s)) room (rooms st))).

(** On disconnect the library takes the socket out of every room and out
    of the connected set before the ['disconnect'] listeners run. *)
Definition sio_release (s : Socket) : M unit :=
  modify (λ st,
    set_sockets (set_rooms st (omap (without (id s)) (rooms st)))
                (sockets st ∖ {[id s]})).

(** The library adds the socket to the connected set before the
    ['connection'] listeners run. *)
Definition sio_accept (s : Socket) : M unit :=
  modify (λ st, set_sockets st ({[id s]} ∪ sockets st)).

(** Room names built by template strings. *)
Definition user_room (uid : string) : string := "user:" +:+ uid.
Definition parking_lot_room (lot : string) : string := "parking_lot:" +:+ lot.

(** ** The external store and the token verifier

    The service reads the store through the database client and checks
    tokens with the JWT library; both are outside the module and appear
    here as the values they hand back. *)

(** What an awaited query resolves to: [{ data }], [{ error }], or a
    rejected promise. *)
Inductive QueryResult (A : Type) : Type :=
  | QData (d : A)
  | QError
  | QReject.
Arguments QData {A} d.
Arguments QError {A}.
Arguments QReject {A}.

(** A row of the [users] table restricted to [id, name, email, role]. *)
Record UserRow : Type := mkUserRow {
  row_name : string;
  row_email : string;
  row_role : string
}.

Record Db : Type := mkDb {
  (** table [users] by id *)
  users : gmap string UserRow;
  (** whether the [users] query itself fails *)
  users_down : bool;
  (** [parking_lots] rows, optionally filtered by id *)
  parking_lots : option string → QueryResult JsVal;
  (** one booking by id and owner; [None] when no row matches *)
  bookings : option string → string → QueryResult (option JsVal);
  (** the three aggregate reads of [getLiveStatistics] *)
  active_bookings : QueryResult JsVal;
  today_revenue : QueryResult JsVal;
  available_spaces : QueryResult JsVal
}.

(** ** Authentication middleware (lines 20-52) *)

Inductive AuthResult : Type :=
  | AuthOk (s : Socket)
  | AuthError (message : string).

(** [token] is the value of
    [handshake.auth.token || handshake.headers.authorization?.split(' ')[1]];
    [jwt_verify] gives the [id] claim of a token the JWT library accepts
    and [None] where [jwt.verify] throws. *)
Definition authenticate (jwt_verify : string → option string) (db : Db)
    (sid : string) (token : option string) : AuthResult :=
  if negb (truthy token) then
    AuthError "Authentication error: No token provided"
  else
    match token ≫= jwt_verify with
    | None => AuthError "Authentication error: Invalid token"
    | Some decoded_id =>
        if users_down db then
          AuthError "Authentication error: User not found"
        else
          match users db !! decoded_id with
          | None => AuthError "Authentication error: User not found"
          | Some user =>
              AuthOk {| id := sid; userId := decoded_id;
                        userRole := row_role user;
                        userEmail := row_email user;
                        userName := row_name user |}
          end
    end.

(** ** Request handlers *)

(** Payload of a [subscribe] or [unsubscribe] message. *)
Record RoomRequest : Type := mkRoomRequest {
  room : option string;
  type : option string
}.

Definition str (o : option string) : JsVal :=
  match o with Some s => JStr s | None => JUndefined end.

(** [handleRoomSubscription(socket, data)] (lines 126-151); [now] is the
    instant read by [new Date()]. *)
Definition handleRoomSubscription (now : Z) (s : Socket)
    (data : option RoomRequest) : M unit :=
  d ← destructure data;
  if negb (truthy (room d)) || negb (truthy (type d)) then
    socket_emit s "error"
      {[ "message" := JStr "Room and type are required for subscription" ]}
  else if bool_decide (type d = Some "admin")
          && negb (bool_decide (userRole s = "admin")) then
    socket_emit s "error" {[ "message" := JStr "Admin privileges required" ]}
  else
    let r := default "" (room d) in
    socket_join s r;;
    modify (λ st,
      if bool_decide (is_Some (roomSubscriptions st !! r)) then st
      else set_roomSubscriptions st (<[r := ∅]> (roomSubscriptions st)));;
    modify (λ st,
      set_roomSubscriptions st
        (alter (λ subs, {[userId s]} ∪ subs) r (roomSubscriptions st)));;
    socket_emit s "subscribed"
      (<["timestamp" := JIsoDate now]>
         {[ "room" := str (room d); "type" := str (type d) ]}).

(** [handleRoomUnsubscription(socket, data)] (lines 154-173) *)
Definition handleRoomUnsubscription (now : Z) (s : Socket)
    (data : option RoomRequest) : M unit :=
  d ← destructure data;
  if negb (truthy (room d)) then
    socket_emit s "error"
      {[ "message" := JStr "Room is required for unsubscription" ]}
  else
    let r := default "" (room d) in
    socket_leave s r;;
    modify (λ st,
      match roomSubscriptions st !! r with
      | None => st
      | Some subscribers =>
          let subscribers' := subscribers ∖ {[userId s]} in
          if bool_decide (size subscribers' = 0%nat) then
            set_roomSubscriptions st (delete r (roomSubscriptions st))
          else
            set_roomSubscriptions st
              (<[r := subscribers']> (roomSubscriptions st))
      end);;
    socket_emit s "unsubscribed"
      (<["timestamp" := JIsoDate now]> {[ "room" := str (room d) ]}).

(** Payload of [get_parking_availability]. *)
Record AvailabilityRequest : Type := mkAvailabilityRequest {
  parking_lot_id : option string
}.

(** [handleParkingAvailabilityRequest(socket, data)] (lines 176-203) *)
Definition handleParkingAvailabilityRequest (db : Db) (now : Z) (s : Socket)
    (data : option AvailabilityRequest) : M unit :=
  try_catch
    (d ← destructure data;
     let filter_id := if truthy (parking_lot_id d) then parking_lot_id d else None in
     match parking_lots db filter_id with
     | QReject => throw "rejected"
     | QError =>
         socket_emit s "error"
           {[ "message" := JStr "Failed to fetch parking availability" ]}
     | QData parkingLots =>
         socket_emit s "parking_availability"
           (<["timestamp" := JIsoDate now]> {[ "parking_lots" := parkingLots ]})
     end)
    (socket_emit s "error" {[ "message" := JStr "Internal server error" ]}).

(** Payload of [get_booking_status]. *)
Record BookingRequest : Type := mkBookingRequest {
  booking_id : option string
}.

(** [handleBookingStatusRequest(socket, data)] (lines 206-236) *)
Definition handleBookingStatusRequest (db : Db) (now : Z) (s : Socket)
    (data : option BookingRequest) : M unit :=
  try_catch
    (d ← destructure data;
     match bookings db (booking_id d) (userId s) with
     | QReject => throw "rejected"
     | QError | QData None =>
         socket_emit s "error" {[ "message" := JStr "Booking not found" ]}
     | QData (Some booking) =>
         socket_emit s "booking_status"
           (<["timestamp" := JIsoDate now]> {[ "booking" := booking ]})
     end)
    (socket_emit s "error" {[ "message" := JStr "Internal server error" ]}).

(** The value an aggregate read leaves after its [then]: [data || 0]. *)
Definition aggregate (q : QueryResult JsVal) : option JsVal :=
  match q with
  | QData d => Some d
  | QError => Some (JNum 0)
  | QReject => None
  end.

(** [getLiveStatistics()] (lines 255-297): the statistics object, or [{}]
    when a read rejects. *)
Definition getLiveStatistics (db : Db) : M JsVal :=
  st ← get_state;
  mret (match aggregate (active_bookings db), aggregate (today_revenue db),
              aggregate (available_spaces db) with
        | Some activeBookings, Some todayRevenue, Some totalSpaces =>
            let infos := (map_to_list (connectedUsers st)).*2 in
            JObj [ ("active_bookings", activeBookings);
                   ("today_revenue", todayRevenue);
                   ("available_spaces", totalSpaces);
                   ("online_users", JNum (Z.of_nat (size (connectedUsers st))));
                   ("connected_admins",
                     JNum (Z.of_nat (length
                       (filter (λ u, role u = "admin") infos)))) ]
        | _, _, _ => JObj []
        end).

(** [handleLiveStatsRequest(socket)] (lines 239-252) *)
Definition handleLiveStatsRequest (db : Db) (now : Z) (s : Socket) : M unit :=
  try_catch
    (stats ← getLiveStatistics db;
     socket_emit s "live_stats"
       (<["timestamp" := JIsoDate now]> {[ "stats" := stats ]}))
    (socket_emit s "error"
       {[ "message" := JStr "Failed to fetch live statistics" ]}).

(** ** Connection life cycle (lines 55-120) *)

(** The ['connection'] listener; [t_conn] and [t_emit] are the instants
    read by the two [new Date()] calls. *)
Definition on_connection (t_conn t_emit : Z) (s : Socket) : M unit :=
  modify (λ st,
    set_connectedUsers st
      (<[userId s := {| socketId := id s; socket := s;
                        connectedAt := t_conn; role := userRole s |}]>
         (connectedUsers st)));;
  socket_join s (user_room (userId s));;
  (if bool_decide (userRole s = "admin") then socket_join s "admin"
   else mret tt);;
  socket_emit s "connected"
    (<["timestamp" := JIsoDate t_emit]>
       {[ "message" := JStr "Connected to real-time updates";
          "userId" := JStr (userId s) ]}).

(** The ['disconnect'] listener (lines 101-112).  The loop visits every
    entry of [roomSubscriptions] once; deleting the entry being visited
    does not disturb the iteration. *)
Definition on_disconnect (s : Socket) : M unit :=
  modify (λ st, set_connectedUsers st (delete (userId s) (connectedUsers st)));;
  modify (λ st,
    set_roomSubscriptions st
      (omap (without (userId s)) (roomSubscriptions st))).

(** A socket that passed the middleware connects. *)
Definition connection (t_conn t_emit : Z) (s : Socket) : M unit :=
  sio_accept s;; on_connection t_conn t_emit s.

(** A connected socket goes away. *)
Definition disconnect (s : Socket) : M unit :=
  sio_release s;; on_disconnect s.

(** The cleanup as the server comes to run it.  The ['disconnect'] listener
    is registered inside the ['connection'] listener (line 101) and the
    library fires it once, when a socket it holds goes away; for a socket the
    server does not hold there is no listener to run. *)
Definition deregister (s : Socket) : M unit :=
  st ← get_state;
  if bool_decide (id s ∈ sockets st) then disconnect s else mret tt.

(** A handshake: the middleware, then the connection on success.  A
    rejected handshake leaves the state as it was. *)
Definition connect (jwt_verify : string → option string) (db : Db)
    (t_conn t_emit : Z) (sid : string) (token : option string) : M AuthResult :=
  match authenticate jwt_verify db sid token with
  | AuthOk s => connection t_conn t_emit s;; mret (AuthOk s)
  | AuthError m => mret (AuthError m)
  end.

(** Messages a connected client can send (the [socket.on] registrations of
    lines 75-98). *)
Inductive Inbound : Type :=
  | Subscribe (data : option RoomRequest)
  | Unsubscribe (data : option RoomRequest)
  | GetParkingAvailability (data : option AvailabilityRequest)
  | GetBookingStatus (data : option BookingRequest)
  | GetLiveStats.

Definition on_message (db : Db) (now : Z) (s : Socket) (msg : Inbound) : M unit :=
  match msg with
  | Subscribe data => handleRoomSubscription now s data
  | Unsubscribe data => handleRoomUnsubscription now s data
  | GetParkingAvailability data => handleParkingAvailabilityRequest db now s data
  | GetBookingStatus data => handleBookingStatusRequest db now s data
  | GetLiveStats =>
      if bool_decide (userRole s = "admin") then handleLiveStatsRequest db now s
      else mret tt
  end.

(** ** Server start and broadcasts *)

(** [initializeWebSocket(server)]: [io] is assigned a new server, which has
    no sockets yet; the two module maps are not touched. *)
Definition initializeWebSocket : M unit :=
  modify (λ st, set_io (set_sockets (set_rooms st ∅) ∅) true).

Definition stamped (now : Z) (p : JsObject) : JsObject :=
  <["timestamp" := JIsoDate now]> p.

(** [broadcastParkingUpdate(parkingLotId, updateData)] (lines 302-318) *)
Definition broadcastParkingUpdate (now1 now2 : Z) (parkingLotId : string)
    (updateData : JsObject) : M unit :=
  st ← get_state;
  if negb (io st) then mret tt
  else
    io_to_emit (parking_lot_room parkingLotId) "parking_updated"
      (stamped now1 (spread {[ "parking_lot_id" := JStr parkingLotId ]} updateData));;
    io_to_emit "parking_updates" "parking_updated"
      (stamped now2 (spread {[ "parking_lot_id" := JStr parkingLotId ]} updateData)).

(** [broadcastBookingUpdate(userId, bookingId, updateData)] (lines 321-338) *)
Definition broadcastBookingUpdate (now1 now2 : Z) (uid bookingId : string)
    (updateData : JsObject) : M unit :=
  st ← get_state;
  if negb (io st) then mret tt
  else
    io_to_emit (user_room uid) "booking_updated"
      (stamped now1 (spread {[ "booking_id" := JStr bookingId ]} updateData));;
    io_to_emit "admin" "booking_updated"
      (stamped now2
         (spread {[ "booking_id" := JStr bookingId; "user_id" := JStr uid ]}
                 updateData)).

(** [broadcastPaymentUpdate(userId, paymentId, updateData)] (lines 341-349) *)
Definition broadcastPaymentUpdate (now : Z) (uid paymentId : string)
    (updateData : JsObject) : M unit :=
  st ← get_state;
  if negb (io st) then mret tt
  else
    io_to_emit (user_room uid) "payment_updated"
      (stamped now (spread {[ "payment_id" := JStr paymentId ]} updateData)).

(** [broadcastNotification(userId, notification)] (lines 352-359) *)
Definition broadcastNotification (now : Z) (uid : string)
    (notification : JsObject) : M unit :=
  st ← get_state;
  if negb (io st) then mret tt
  else io_to_emit (user_room uid) "notification" (stamped now notification).

(** [broadcastSystemAnnouncement(message, type = 'info')] (lines 362-370) *)
Definition broadcastSystemAnnouncement (now : Z) (message : string)
    (type : option string) : M unit :=
  st ← get_state;
  if negb (io st) then mret tt
  else
    io_emit "system_announcement"
      (stamped now {[ "message" := JStr message;
                      "type" := JStr (default "info" type) ]}).

(** [getConnectedUsersInfo()] (lines 373-385): [total_connected] and
    [admins_online]. *)
Definition getConnectedUsersInfo (st : State) : nat * nat :=
  let users := (map_to_list (connectedUsers st)).*2 in
  (length users, length (filter (λ u, role u = "admin") users)).

(** ** Everything that can happen to the module *)

Inductive Action : Type :=
  | Initialize
  | Connection (t_conn t_emit : Z) (s : Socket)
  | Message (db : Db) (now : Z) (s : Socket) (msg : Inbound)
  | Disconnect (s : Socket)
  | ParkingUpdate (now1 now2 : Z) (parkingLotId : string) (updateData : JsObject)
  | BookingUpdate (now1 now2 : Z) (uid bookingId : string) (updateData : JsObject)
  | PaymentUpdate (now : Z) (uid paymentId : string) (updateData : JsObject)
  | Notification (now : Z) (uid : string) (notification : JsObject)
  | SystemAnnouncement (now : Z) (message : string) (type : option string).

Definition run (a : Action) : M unit :=
  match a with
  | Initialize => initializeWebSocket
  | Connection t1 t2 s => connection t1 t2 s
  | Message db now s msg => on_message db now s msg
  | Disconnect s => disconnect s
  | ParkingUpdate t1 t2 lot u => broadcastParkingUpdate t1 t2 lot u
  | BookingUpdate t1 t2 uid b u => broadcastBookingUpdate t1 t2 uid b u
  | PaymentUpdate t uid p u => broadcastPaymentUpdate t uid p u
  | Notification t uid n => broadcastNotification t uid n
  | SystemAnnouncement t m ty => broadcastSystemAnnouncement t m ty
  end.

(** A sequence of actions; an exception that escapes a listener ends it. *)
Fixpoint run_all (l : list Action) : M unit :=
  match l with
  | [] => mret tt
  | a :: l' => run a;; run_all l'
  end.

(** ** The [users] array of [getConnectedUsersInfo] (lines 374-378) *)

Module UserInfo.
Record t : Type := mk {
  user_id : string;
  connected_at : Z;
  role : string
}.
End UserInfo.

(** [Array.from(connectedUsers.entries()).map(...)] *)
Definition connected_users (st : State) : list UserInfo.t :=
  (λ entry, UserInfo.mk entry.1 (connectedAt entry.2) (role entry.2))
    <$> map_to_list (connectedUsers st).

(** * Callers over HTTP

    The routes of routes/realtimeRoutes.js, the admin check of
    middleware/roleMiddleware.js they go through, and the handlers of
    controllers/realtimeController.js that call into the service. *)

(** What a handler sends back: [res.status(code).json(body)]. *)
Record Response : Type := mkResponse {
  status : Z;
  json : JsObject
}.

(** [res.json(body)] answers with status 200. *)
Definition res_json (body : JsObject) : Response := mkResponse 200 body.

Definition error_response (code : Z) (message : string) : Response :=
  mkResponse code {[ "error" := JStr message ]}.

(** The [users] row of one id, as [.eq('id', userId).single()] hands it
    back: an error when the query fails or no row matches. *)
Definition select_user (db : Db) (uid : string) : QueryResult UserRow :=
  if users_down db then QError
  else match users db !! uid with
       | Some row => QData row
       | None => QError
       end.

(** A middleware either hands over to the next handler or answers. *)
Inductive Middleware : Type :=
  | Next
  | Respond (r : Response).

(** [requireAdmin] (roleMiddleware.js, lines 4-29); [user] is what the
    query for the role of [req.user.id] resolves to. *)
Definition requireAdmin (user : QueryResult UserRow) : Middleware :=
  match user with
  | QReject => Respond (error_response 500 "Internal server error")
  | QError => Respond (error_response 403 "Access denied: User not found")
  | QData user =>
      if negb (bool_decide (row_role user = "admin")) then
        Respond (error_response 403 "Access denied: Admin privileges required")
      else Next
  end.

Module realtimeController.

(** [exports.getLiveStatistics] *)
Definition getLiveStatistics (db : Db) (now : Z) : M Response :=
  try_catch
    (stats ← getLiveStatistics db;
     mret (res_json
       (stamped now {[ "message" := JStr "Live system statistics";
                       "stats" := stats ]})))
    (mret (error_response 500 "Internal server error")).

(** [exports.getConnectionStatus]; [user_id] is [req.user.id]. *)
Definition getConnectionStatus (now : Z) (user_id : string) : M Response :=
  st ← get_state;
  let users := connected_users st in
  let isConnected :=
    existsb (λ user, bool_decide (UserInfo.user_id user = user_id)) users in
  mret (res_json
    (stamped now {[ "is_connected" := JBool isConnected;
                    "user_id" := JStr user_id;
                    "total_connected_users" := JNum (Z.of_nat (length users)) ]})).

(** Body of a request to send an announcement. *)
Record AnnouncementBody : Type := mkAnnouncementBody {
  message : option string;
  type : option string
}.

Definition validTypes : list string :=
  ["info"; "warning"; "success"; "error"; "maintenance"].

(** [exports.sendSystemAnnouncement]; [stored] is what the insert into
    [system_announcements] resolves to, [now_ws] and [now_res] the instants
    read for the broadcast and for the answer. *)
Definition sendSystemAnnouncement (now_ws now_res : Z) (user_id : string)
    (body : option AnnouncementBody) (stored : QueryResult JsVal) : M Response :=
  try_catch
    (b ← destructure body;
     let type := default "info" (type b) in
     if negb (truthy (message b)) then
       mret (error_response 400 "Message is required")
     else if negb (bool_decide (type ∈ validTypes)) then
       mret (error_response 400 "Invalid announcement type")
     else
       broadcastSystemAnnouncement now_ws (default "" (message b)) (Some type);;
       match stored with
       | QReject => throw "rejected"
       | QError | QData _ =>
           mret (res_json
             {[ "message" := JStr "System announcement sent successfully";
                "announcement" :=
                  JObj [ ("message", str (message b)); ("type", JStr type);
                         ("sent_at", JIsoDate now_res);
                         ("sent_by", JStr user_id) ] ]})
       end)
    (mret (error_response 500 "Internal server error")).

(** A row of [parking_lots] as far as the handler reads it. *)
Record ParkingLot : Type := mkParkingLot {
  total_spaces : Z;
  available_spaces : Z
}.

(** Body of a manual availability update; the count is a whole number. *)
Record AvailabilityBody : Type := mkAvailabilityBody {
  new_available_spaces : option Z;
  reason : option string
}.

(** [exports.updateParkingLotAvailability]; [fetched], [updated] and
    [logged] are what the three store calls resolve to ([logged] is false
    when the insert into [parking_lot_updates] rejects), [render] is the
    conversion of a number to text in the template string. *)
Definition updateParkingLotAvailability (render : Z → string)
    (now_ws1 now_ws2 now_res : Z) (parking_lot_id user_id : string)
    (body : option AvailabilityBody)
    (fetched : QueryResult (option ParkingLot))
    (updated : QueryResult JsVal) (logged : bool) : M Response :=
  try_catch
    (b ← destructure body;
     match new_available_spaces b with
     | None => mret (error_response 400 "Available spaces is required")
     | Some n =>
         match fetched with
         | QReject => throw "rejected"
         | QError | QData None => mret (error_response 404 "Parking lot not found")
         | QData (Some parkingLot) =>
             if (n <? 0) || (n >? total_spaces parkingLot) then
               mret (error_response 400
                       ("Available spaces must be between 0 and "
                        +:+ render (total_spaces parkingLot)))
             else
               match updated with
               | QReject => throw "rejected"
               | QError => mret (error_response 500 "Failed to update parking lot")
               | QData updatedLot =>
                   if negb logged then throw "rejected"
                   else
                     let reason :=
                       if truthy (reason b) then default "" (reason b)
                       else "Manual update" in
                     broadcastParkingUpdate now_ws1 now_ws2 parking_lot_id
                       {[ "available_spaces" := JNum n;
                          "action" := JStr "manual_update";
                          "reason" := JStr reason;
                          "updated_by" := JStr user_id ]};;
                     mret (res_json
                       (stamped now_res
                          {[ "message" :=
                               JStr "Parking lot availability updated successfully";
                             "parking_lot" := updatedLot;
                             "previous_available" :=
                               JNum (available_spaces parkingLot);
                             "new_available" := JNum n ]}))
               end
         end
     end)
    (mret (error_response 500 "Internal server error")).

End realtimeController.

(** The admin-only routes of routes/realtimeRoutes.js: [requireAdmin], then
    the handler. *)
Definition admin_route (db : Db) (user_id : string) (handler : M Response)
    : M Response :=
  match requireAdmin (select_user db user_id) with
  | Next => handler
  | Respond r => mret r
  end.

(** [router.get('/live-stats', requireAdmin, ...)] *)
Definition live_stats_route (db : Db) (now : Z) (user_id : string) : M Response :=
  admin_route db user_id (realtimeController.getLiveStatistics db now).

(** [router.post('/announcement', requireAdmin, ...)] *)
Definition announcement_route (db : Db) (now_ws now_res : Z) (user_id : string)
    (body : option realtimeController.AnnouncementBody)
    (stored : QueryResult JsVal) : M Response :=
  admin_route db user_id
    (realtimeController.sendSystemAnnouncement now_ws now_res user_id body stored).

(** ** Cancelling a booking (the booking controller, [exports.cancelBooking]) *)

Module bookingController.

(** A row of [bookings] as far as the handler reads it. *)
Record Booking : Type := mkBooking {
  status : string;
  parking_lot_id : string
}.

(** [{ data }] of an awaited query whose error is not looked at. *)
Definition data_of {A} (q : QueryResult (option A)) : M (option A) :=
  match q with
  | QData d => mret d
  | QError => mret None
  | QReject => throw "rejected"
  end.

(** [exports.cancelBooking]; [id] is [req.params.id], [user_id] is
    [req.user.id]; [existing], [cancelled], [lot] (the lot's
    [available_spaces]) and [restored] are what the four store calls
    resolve to.  The update of the lot (lines 829-834) is awaited and its
    result is not looked at: an update that resolves with an error goes
    on like one that succeeds, and only a rejected promise is thrown. *)
Definition cancelBooking (t1 t2 t3 t4 : Z) (id user_id : string)
    (existing : QueryResult (option Booking))
    (cancelled : QueryResult JsObject)
    (lot : QueryResult (option Z)) (restored : QueryResult JsVal)
    : M Response :=
  try_catch
    (match existing with
     | QReject => throw "rejected"
     | QError | QData None => mret (error_response 404 "Booking not found")
     | QData (Some existingBooking) =>
         if negb (bool_decide (status existingBooking = "active")) then
           mret (error_response 400 "Booking is already cancelled or completed")
         else
           match cancelled with
           | QReject => throw "rejected"
           | QError => mret (error_response 500 "Failed to cancel booking")
           | QData cancelledBooking =>
               parkingLot ← data_of lot;
               (if bool_decide (is_Some parkingLot) then
                  match restored with
                  | QReject => throw "rejected"
                  | QData _ | QError => mret tt
                  end
                else mret tt);;
               try_catch
                 (available_spaces ←
                    match parkingLot with
                    | Some a => mret a
                    | None => throw "TypeError"
                    end;
                  broadcastParkingUpdate t1 t2 (parking_lot_id existingBooking)
                    {[ "available_spaces" := JNum (available_spaces + 1);
                       "action" := JStr "booking_cancelled" ]};;
                  broadcastBookingUpdate t3 t4 user_id id
                    {[ "status" := JStr "cancelled";
                       "action" := JStr "booking_cancelled";
                       "booking" := JObj (map_to_list cancelledBooking) ]})
                 (mret tt);;
               mret (res_json cancelledBooking)
           end
     end)
    (mret (error_response 500 "Internal server error")).

End bookingController.

(** * Vocabulary of the properties *)

(** ** Handlers and what they keep true *)

(** Every run of [m] from a state satisfying [I] ends, by return or by
    exception, in a state satisfying [I]. *)
Definition preserves {A} (I : State → Prop) (m : M A) : Prop :=
  ∀ st, I st → I (final (m st)).

(** ** Requests and the events that answer them *)

(** The two guards of [handleRoomSubscription] taken together. *)
Definition accepts (s : Socket) (d : RoomRequest) : bool :=
  truthy (room d) && truthy (type d)
  && negb (bool_decide (type d = Some "admin")
           && negb (bool_decide (userRole s = "admin"))).

(** The room a request names, once [room] is known to be truthy. *)
Definition room_name (d : RoomRequest) : string := default "" (room d).

Definition subscribed_event (now : Z) (d : RoomRequest) : Event :=
  mkEvent "subscribed"
    (<["timestamp" := JIsoDate now]>
       {[ "room" := str (room d); "type" := str (type d) ]}).

Definition error_event (message : string) : Event :=
  mkEvent "error" {[ "message" := JStr message ]}.

Definition connected_event (t_emit : Z) (s : Socket) : Event :=
  mkEvent "connected"
    (<["timestamp" := JIsoDate t_emit]>
       {[ "message" := JStr "Connected to real-time updates";
          "userId" := JStr (userId s) ]}).

(** The registry entry written for a connection. *)
Definition registry_entry (t_conn : Z) (s : Socket) : ConnInfo :=
  {| socketId := id s; socket := s; connectedAt := t_conn; role := userRole s |}.

(** ** Registry *)

(** A connection has a registry entry of its own when some entry carries
    its socket id. *)
Definition has_own_entry (st : State) (s : Socket) : Prop :=
  ∃ key info, connectedUsers st !! key = Some info ∧ socketId info = id s.

(** A connection the server does not hold: it is not among the connected
    sockets and in no room.  This is the state of a connection that never
    connected or that has disconnected. *)
Definition detached (st : State) (s : Socket) : Prop :=
  (id s ∉ sockets st) ∧ map_Forall (λ _ m, id s ∉ m) (rooms st).


(** Everything but the outboxes: the server handle, the registry with the
    cached roles, the tracked subscriptions, the connected sockets and the
    rooms. *)
Definition view (st : State) :=
  (io st, connectedUsers st, roomSubscriptions st, sockets st, rooms st).

(** Two actions that differ at most in the store a message is handled
    against. *)
Inductive same_but_store : Action → Action → Prop :=
  | same_message db db' now s msg :
      same_but_store (Message db now s msg) (Message db' now s msg)
  | same_action a : same_but_store a a.

(** ** Topics *)

Definition no_empty_entry (m : gmap string (gset string)) : Prop :=
  ∀ r subs, m !! r = Some subs → subs ≠ ∅.

(** Neither the tracking map nor the rooms hold a name with nobody under
    it. *)
Definition no_empty_topic (st : State) : Prop :=
  no_empty_entry (roomSubscriptions st) ∧ no_empty_entry (rooms st).

(** ** Outbound events *)

Definition timestamped (ev : Event) : Prop :=
  ∃ t, payload ev !! "timestamp" = Some (JIsoDate t).

(** An error event as the service builds it: a message and nothing else. *)
Definition bare_error (ev : Event) : Prop :=
  ∃ message, ev = error_event message.

Definition stamped_unless_error (ev : Event) : Prop :=
  bare_error ev ∨ (name ev ≠ "error" ∧ timestamped ev).

(** [st'] has the outboxes of [st] with further events, all satisfying [P],
    appended. *)
Definition pushed (P : Event → Prop) (st st' : State) : Prop :=
  ∀ sid, ∃ evs, queue st' sid = queue st sid ++ evs ∧ Forall P evs.

(** ** Sample data for the examples *)

(** Two users: Dee, a driver, and Ada, an admin. *)
Definition sample_store : Db :=
  {| users := {[ "u-1" := mkUserRow "Dee" "d@example.org" "user";
                 "u-9" := mkUserRow "Ada" "a@example.org" "admin" ]};
     users_down := false;
     parking_lots := λ _, QData (JArr []);
     bookings := λ _ _, QData None;
     active_bookings := QData (JNum 0);
     today_revenue := QData (JNum 0);
     available_spaces := QData (JNum 0) |}.

(** The same store after Dee has been made an admin. *)
Definition promoted_store : Db :=
  {| users := <["u-1" := mkUserRow "Dee" "d@example.org" "admin"]>
                (users sample_store);
     users_down := false;
     parking_lots := parking_lots sample_store;
     bookings := bookings sample_store;
     active_bookings := active_bookings sample_store;
     today_revenue := today_revenue sample_store;
     available_spaces := available_spaces sample_store |}.

(** A store with no rows at all. *)
Definition no_store : Db :=
  {| users := ∅; users_down := false;
     parking_lots := λ _, QData (JArr []);
     bookings := λ _ _, QData None;
     active_bookings := QData (JNum 0);
     today_revenue := QData (JNum 0);
     available_spaces := QData (JNum 0) |}.

(** A verifier that accepts tokens of the form ["tok:<id>"]. *)
Definition sample_verify (token : string) : option string :=
  if String.prefix "tok:" token
  then Some (String.substring 4 (String.length token - 4) token)
  else None.

(** Dee on her laptop and on her phone, and Ada. *)
Definition dee : Socket := mkSocket "sock-1" "u-1" "user" "d@example.org" "Dee".
Definition dee_phone : Socket :=
  mkSocket "sock-2" "u-1" "user" "d@example.org" "Dee".
Definition ada : Socket := mkSocket "sock-9" "u-9" "admin" "a@example.org" "Ada".

Definition lot_updates : RoomRequest :=
  {| room := Some "parking_updates"; type := Some "general" |}.

Definition admin_feed : RoomRequest :=
  {| room := Some "admin"; type := Some "admin" |}.

(** ** Further vocabulary: events of the broadcasts *)

Definition unsubscribed_event (now : Z) (d : RoomRequest) : Event :=
  mkEvent "unsubscribed"
    (<["timestamp" := JIsoDate now]> {[ "room" := str (room d) ]}).

Definition notification_event (now : Z) (notification : JsObject) : Event :=
  mkEvent "notification" (stamped now notification).

Definition parking_event (now : Z) (parkingLotId : string)
    (updateData : JsObject) : Event :=
  mkEvent "parking_updated"
    (stamped now (spread {[ "parking_lot_id" := JStr parkingLotId ]} updateData)).

(** The copy of a booking update for the owner, and the one for admins. *)
Definition booking_event (now : Z) (bookingId : string)
    (updateData : JsObject) : Event :=
  mkEvent "booking_updated"
    (stamped now (spread {[ "booking_id" := JStr bookingId ]} updateData)).

Definition booking_event_for_admins (now : Z) (uid bookingId : string)
    (updateData : JsObject) : Event :=
  mkEvent "booking_updated"
    (stamped now
       (spread {[ "booking_id" := JStr bookingId; "user_id" := JStr uid ]}
               updateData)).

Definition payment_event (now : Z) (paymentId : string)
    (updateData : JsObject) : Event :=
  mkEvent "payment_updated"
    (stamped now (spread {[ "payment_id" := JStr paymentId ]} updateData)).

Definition announcement_event (now : Z) (message type : string) : Event :=
  mkEvent "system_announcement"
    (stamped now {[ "message" := JStr message; "type" := JStr type ]}).

(** [[ev]] when [sid] is among [targets], nothing otherwise. *)
Definition delivered (targets : gset string) (sid : string) (ev : Event)
    : list Event :=
  if decide (sid ∈ targets) then [ev] else [].

(** The five broadcast entry points. *)
Definition is_broadcast (a : Action) : bool :=
  match a with
  | ParkingUpdate _ _ _ _ | BookingUpdate _ _ _ _ _ | PaymentUpdate _ _ _ _
  | Notification _ _ _ | SystemAnnouncement _ _ _ => true
  | _ => false
  end.

(** The requests for data, as opposed to those that change subscriptions. *)
Definition is_data_request (msg : Inbound) : bool :=
  match msg with
  | Subscribe _ | Unsubscribe _ => false
  | _ => true
  end.

(** A request that arrives without its payload object. *)
Definition lacks_payload (msg : Inbound) : bool :=
  match msg with
  | Subscribe None | Unsubscribe None => true
  | _ => false
  end.

(** Whether the user has an entry in the registry. *)
Definition registered (st : State) (uid : string) : bool :=
  bool_decide (is_Some (connectedUsers st !! uid)).

(** A request for live statistics from a connection that is no admin. *)
Definition is_dropped (s : Socket) (msg : Inbound) : bool :=
  match msg with
  | GetLiveStats => negb (bool_decide (userRole s = "admin"))
  | _ => false
  end.

(** ** Further vocabulary: the HTTP callers *)

(** The store has a row for the user and it says admin. *)
Definition admin_in_store (db : Db) (uid : string) : bool :=
  match select_user db uid with
  | QData row => bool_decide (row_role row = "admin")
  | _ => false
  end.

(** A request body that passes the two checks of [sendSystemAnnouncement]. *)
Definition valid_announcement
    (body : option realtimeController.AnnouncementBody) : bool :=
  match body with
  | Some b =>
      truthy (realtimeController.message b)
      && bool_decide (default "info" (realtimeController.type b)
                      ∈ realtimeController.validTypes)
  | None => false
  end.

(** The update data of a manual availability update. *)
Definition manual_update_data (n : Z) (reason : option string)
    (user_id : string) : JsObject :=
  {[ "available_spaces" := JNum n;
     "action" := JStr "manual_update";
     "reason" := JStr (if truthy reason then default "" reason
                       else "Manual update");
     "updated_by" := JStr user_id ]}.

(** The update data of the two broadcasts of a cancellation. *)
Definition space_released (available : Z) : JsObject :=
  {[ "available_spaces" := JNum (available + 1);
     "action" := JStr "booking_cancelled" ]}.

Definition booking_cancelled (cancelledBooking : JsObject) : JsObject :=
  {[ "status" := JStr "cancelled";
     "action" := JStr "booking_cancelled";
     "booking" := JObj (map_to_list cancelledBooking) ]}.

(** ** Further vocabulary: staying in a room *)

(** The actions after which the socket [sid] may be out of room [r]: the
    server is started anew, the socket disconnects, or it unsubscribes from
    [r]. *)
Definition may_leave (sid r : string) (a : Action) : bool :=
  match a with
  | Initialize => true
  | Disconnect s => bool_decide (id s = sid)
  | Message _ _ s (Unsubscribe (Some d)) =>
      bool_decide (id s = sid) && bool_decide (room d = Some r)
  | _ => false
  end.

(** The registry entry under the connection's user id is that of this
    connection. *)
Definition registered_as (st : State) (s : Socket) : Prop :=
  ∃ info, connectedUsers st !! userId s = Some info ∧ socketId info = id s.

(** * Properties *)

(** ** Queues, rooms and tracked subscriptions under the primitives *)

Lemma push_lookup (targets : gset string) ev (ob : gmap string (list Event)) sid :
  default [] (push targets ev ob !! sid) =
  if decide (sid ∈ targets) then default [] (ob !! sid) ++ [ev]
  else default [] (ob !! sid).
Proof.
  unfold push. rewrite lookup_union_with, lookup_gset_to_gmap.
  destruct (decide (sid ∈ targets)) as [Hin|Hout].
  - rewrite option_guard_True by done. simpl.
    destruct (ob !! sid); reflexivity.
  - rewrite option_guard_False by done. simpl.
    destruct (ob !! sid); reflexivity.
Qed.

Lemma without_elem x y (subs subs' : gset string) :
  without x subs = Some subs' → (y ∈ subs' ↔ y ∈ subs ∧ y ≠ x).
Proof.
  unfold without. case_bool_decide; [done|].
  intros [= <-]. set_solver.
Qed.

Lemma without_Some_nonempty x (subs subs' : gset string) :
  without x subs = Some subs' → subs' ≠ ∅.
Proof.
  unfold without. case_bool_decide as Hsz; [done|].
  intros [= <-] Hempty. apply Hsz. rewrite Hempty. apply size_empty.
Qed.

Lemma without_default x (subs : gset string) :
  default ∅ (without x subs) = subs ∖ {[x]}.
Proof.
  unfold without. case_bool_decide as Hsz; [|done].
  simpl. symmetry. apply leibniz_equiv. by apply size_empty_iff.
Qed.

Lemma without_absent x (subs : gset string) :
  x ∉ subs → subs ≠ ∅ → without x subs = Some subs.
Proof.
  intros Hx Hne. unfold without.
  assert (subs ∖ {[x]} = subs) as -> by set_solver.
  case_bool_decide as Hsz; [|done].
  exfalso. apply Hne. apply leibniz_equiv. by apply size_empty_iff.
Qed.

Lemma without_idem x (subs subs' : gset string) :
  without x subs = Some subs' → without x subs' = Some subs'.
Proof.
  intros H. apply without_absent.
  - rewrite (without_elem _ x _ _ H). naive_solver.
  - by eapply without_Some_nonempty.
Qed.

Lemma omap_without_default x (m : gmap string (gset string)) r :
  default ∅ (omap (without x) m !! r) = default ∅ (m !! r) ∖ {[x]}.
Proof.
  rewrite lookup_omap. destruct (m !! r) as [subs|]; simpl.
  - apply without_default.
  - set_solver.
Qed.

Lemma omap_without_idem x (m : gmap string (gset string)) :
  omap (without x) (omap (without x) m) = omap (without x) m.
Proof.
  apply map_eq. intros r. rewrite !lookup_omap.
  destruct (m !! r) as [subs|]; simpl; [|done].
  destruct (without x subs) as [subs'|] eqn:H; simpl; [|done].
  by eapply without_idem.
Qed.

(** ** Reasoning about handlers: what every run of a handler keeps true *)

Section preserves.
Context (I : State → Prop).

Lemma preserves_ret {A} (a : A) : preserves I (mret a).
Proof. intros st H. exact H. Qed.

Lemma preserves_throw {A} e : preserves I (@throw A e).
Proof. intros st H. exact H. Qed.

Lemma preserves_bind {A B} (m : M A) (f : A → M B) :
  preserves I m → (∀ a, preserves I (f a)) → preserves I (m ≫= f).
Proof.
  intros Hm Hf st H. specialize (Hm st H).
  unfold mbind, M_bind. destruct (m st) as [a st'|e st']; simpl in *.
  - by apply Hf.
  - exact Hm.
Qed.

Lemma preserves_get_state : preserves I get_state.
Proof. intros st H. exact H. Qed.

Lemma preserves_modify f : (∀ st, I st → I (f st)) → preserves I (modify f).
Proof. intros Hf st H. by apply Hf. Qed.

Lemma preserves_destructure {A} (data : option A) :
  preserves I (destructure data).
Proof. destruct data; [apply preserves_ret | apply preserves_throw]. Qed.

Lemma preserves_try_catch {A} (body handler : M A) :
  preserves I body → preserves I handler → preserves I (try_catch body handler).
Proof.
  intros Hb Hh st H. specialize (Hb st H).
  unfold try_catch. destruct (body st) as [a st'|e st']; simpl in *.
  - exact Hb.
  - by apply Hh.
Qed.

Lemma preserves_if {A} (b : bool) (m1 m2 : M A) :
  preserves I m1 → preserves I m2 → preserves I (if b then m1 else m2).
Proof. by destruct b. Qed.
End preserves.

Create HintDb handlers discriminated.
#[export] Hint Resolve preserves_ret preserves_throw preserves_get_state
  preserves_destructure : handlers.

(** Unfolds the monad so that a handler applied to a state computes. *)
Ltac step_handler :=
  cbv [mbind M_bind mret M_ret modify get_state throw destructure try_catch];
  simpl.

(** ** Broadcasts before the server is started *)

(** C10: while [io] is unset (initializeWebSocket has not run), each of the
    five broadcast entry points returns at once: it raises nothing, pushes
    no event and leaves the state as it was. *)
Theorem broadcast_without_server_is_noop (st : State) :
  io st = false →
  (∀ t1 t2 lot u, broadcastParkingUpdate t1 t2 lot u st = Returned tt st) ∧
  (∀ t1 t2 uid b u, broadcastBookingUpdate t1 t2 uid b u st = Returned tt st) ∧
  (∀ t uid p u, broadcastPaymentUpdate t uid p u st = Returned tt st) ∧
  (∀ t uid n, broadcastNotification t uid n st = Returned tt st) ∧
  (∀ t m ty, broadcastSystemAnnouncement t m ty st = Returned tt st).
Proof.
  intros Hio.
  repeat split; intros;
    unfold broadcastParkingUpdate, broadcastBookingUpdate,
      broadcastPaymentUpdate, broadcastNotification,
      broadcastSystemAnnouncement;
    step_handler; rewrite Hio; reflexivity.
Qed.

Lemma broadcast_without_server_is_noop_witness :
  io init = false ∧
  broadcastNotification 0 "u-1" {[ "title" := JStr "Booking confirmed" ]} init
    = Returned tt init ∧
  broadcastSystemAnnouncement 0 "Maintenance at noon" None init
    = Returned tt init.
Proof.
  split; [reflexivity|].
  destruct (broadcast_without_server_is_noop init eq_refl)
    as (_ & _ & _ & Hn & Ha).
  split; [apply Hn | apply Ha].
Defined.

(** ** Live statistics are for admins *)

(** C9: a [get_live_stats] message from a connection whose cached role is
    not admin is dropped: the listener returns, and the state, every
    outbox included, is what it was, so neither a reply nor an error is
    pushed. *)
Theorem live_stats_request_dropped_for_non_admin
    (db : Db) (now : Z) (s : Socket) (st : State) :
  userRole s ≠ "admin" →
  on_message db now s GetLiveStats st = Returned tt st.
Proof.
  intros Hrole. unfold on_message.
  rewrite bool_decide_eq_false_2 by done. reflexivity.
Qed.

Lemma live_stats_request_dropped_for_non_admin_witness :
  let driver := mkSocket "sock-1" "u-1" "user" "d@example.org" "Dee" in
  userRole driver ≠ "admin" ∧
  on_message no_store 7 driver GetLiveStats init = Returned tt init.
Proof.
  intros driver.
  assert (userRole driver ≠ "admin") as H by (simpl; discriminate).
  split; [exact H|].
  exact (live_stats_request_dropped_for_non_admin no_store 7 driver init H).
Defined.

(** For an admin the request is answered to the requester alone. *)
Lemma live_stats_request_answered_for_admin db now s st :
  userRole s = "admin" →
  ∃ ev, on_message db now s GetLiveStats st
        = Returned tt (set_outbox st (push {[id s]} ev (outbox st)))
      ∧ name ev = "live_stats".
Proof.
  intros Hrole. unfold on_message.
  rewrite bool_decide_eq_true_2 by done.
  unfold handleLiveStatsRequest, getLiveStatistics, socket_emit.
  step_handler. eexists. split; [reflexivity|reflexivity].
Qed.

(** ** What a subscribe or unsubscribe request does *)

Lemma ensure_then_add (m : gmap string (gset string)) r x :
  alter (λ subs, {[x]} ∪ subs) r
    (if bool_decide (is_Some (m !! r)) then m else <[r := ∅]> m)
  = <[r := {[x]} ∪ default ∅ (m !! r)]> m.
Proof.
  destruct (m !! r) as [subs|] eqn:Hr; simpl.
  - apply map_eq. intros k. rewrite lookup_alter, lookup_insert.
    case_decide; subst; [by rewrite Hr | done].
  - by rewrite alter_insert_eq.
Qed.

Lemma handleRoomSubscription_accepted now s d st :
  accepts s d = true →
  handleRoomSubscription now s (Some d) st
  = Returned tt
      {| io := io st; connectedUsers := connectedUsers st;
         roomSubscriptions :=
           <[room_name d := {[userId s]} ∪ tracked st (room_name d)]>
             (roomSubscriptions st);
         sockets := sockets st;
         rooms := <[room_name d := {[id s]} ∪ members st (room_name d)]>
                    (rooms st);
         outbox := push {[id s]} (subscribed_event now d) (outbox st) |}.
Proof.
  unfold accepts. intros Hacc. set (r := room_name d).
  apply andb_true_iff in Hacc as [Hacc Hgate].
  apply andb_true_iff in Hacc as [Hroom Htype].
  unfold handleRoomSubscription, socket_emit, socket_join. step_handler.
  rewrite Hroom, Htype. simpl.
  apply negb_true_iff in Hgate. rewrite Hgate.
  unfold set_roomSubscriptions, set_outbox, set_rooms, tracked.
  change (default "" (room d)) with r.
  pose proof (ensure_then_add (roomSubscriptions st) r (userId s)) as Hadd.
  destruct (roomSubscriptions st !! r) as [subs|]; simpl in *;
    rewrite <- Hadd; reflexivity.
Qed.

Lemma handleRoomSubscription_refused now s d st :
  accepts s d = false →
  ∃ message,
    handleRoomSubscription now s (Some d) st
    = Returned tt (set_outbox st (push {[id s]} (error_event message) (outbox st))).
Proof.
  unfold accepts. intros Hacc.
  unfold handleRoomSubscription, socket_emit. step_handler.
  destruct (truthy (room d)); simpl in *;
    [|eexists; reflexivity].
  destruct (truthy (type d)); simpl in *;
    [|eexists; reflexivity].
  apply negb_false_iff in Hacc. rewrite Hacc.
  eexists; reflexivity.
Qed.

Lemma unsubscribe_tracking (m : gmap string (gset string)) r x st :
  roomSubscriptions
    (match m !! r with
     | None => set_roomSubscriptions st m
     | Some subscribers =>
         let subscribers' := subscribers ∖ {[x]} in
         if bool_decide (size subscribers' = 0%nat)
         then set_roomSubscriptions st (delete r m)
         else set_roomSubscriptions st (<[r := subscribers']> m)
     end)
  = partial_alter (leave x) r m.
Proof.
  apply map_eq. intros k. rewrite lookup_partial_alter. unfold leave.
  destruct (m !! r) as [subs|] eqn:Hr; simpl.
  - unfold without. case_bool_decide; simpl.
    + rewrite lookup_delete. by case_decide.
    + rewrite lookup_insert. by case_decide.
  - case_decide; subst; done.
Qed.

Lemma handleRoomUnsubscription_done now s d st :
  truthy (room d) = true →
  handleRoomUnsubscription now s (Some d) st
  = Returned tt
      {| io := io st; connectedUsers := connectedUsers st;
         roomSubscriptions :=
           partial_alter (leave (userId s)) (room_name d)
             (roomSubscriptions st);
         sockets := sockets st;
         rooms := partial_alter (leave (id s)) (room_name d)
                    (rooms st);
         outbox :=
           push {[id s]}
             (mkEvent "unsubscribed"
                (<["timestamp" := JIsoDate now]> {[ "room" := str (room d) ]}))
             (outbox st) |}.
Proof.
  intros Hroom. set (r := room_name d).
  unfold handleRoomUnsubscription, socket_emit, socket_leave. step_handler.
  rewrite Hroom. simpl. fold (room_name d). fold r.
  rewrite <- (unsubscribe_tracking (roomSubscriptions st) r (userId s) st).
  destruct (roomSubscriptions st !! r) as [subs|]; simpl;
    [case_bool_decide|]; reflexivity.
Qed.

Lemma handleRoomUnsubscription_refused now s d st :
  truthy (room d) = false →
  handleRoomUnsubscription now s (Some d) st
  = Returned tt
      (set_outbox st
         (push {[id s]} (error_event "Room is required for unsubscription")
               (outbox st))).
Proof.
  intros Hroom. unfold handleRoomUnsubscription, socket_emit. step_handler.
  rewrite Hroom. reflexivity.
Qed.

(** ** What a connection does *)

Lemma admin_is_no_user_room uid : "admin" ≠ user_room uid.
Proof. unfold user_room. simpl. discriminate. Qed.

Lemma connection_spec t_conn t_emit s st :
  ∃ st',
    connection t_conn t_emit s st = Returned tt st'
    ∧ io st' = io st
    ∧ connectedUsers st'
      = <[userId s := registry_entry t_conn s]> (connectedUsers st)
    ∧ roomSubscriptions st' = roomSubscriptions st
    ∧ sockets st' = {[id s]} ∪ sockets st
    ∧ (∀ r, members st' r
            = if decide (r = user_room (userId s)
                         ∨ (r = "admin" ∧ userRole s = "admin"))
              then {[id s]} ∪ members st r else members st r)
    ∧ outbox st' = push {[id s]} (connected_event t_emit s) (outbox st).
Proof.
  unfold connection, on_connection, sio_accept, socket_join, socket_emit.
  step_handler.
  pose proof (admin_is_no_user_room (userId s)) as Hne.
  case_bool_decide as Hrole; step_handler;
    (eexists; split; [reflexivity|]; simpl;
     repeat (split; [reflexivity|]); split; [|reflexivity]);
    intros r; unfold members; simpl.
  - rewrite !lookup_insert.
    destruct (decide ("admin" = r)) as [<-|?]; simpl.
    + rewrite decide_True by auto.
      destruct (decide (user_room (userId s) = "admin")) as [E|_]; [|done].
      by destruct Hne.
    + destruct (decide (user_room (userId s) = r)) as [<-|?]; simpl.
      * rewrite decide_True by auto. reflexivity.
      * rewrite decide_False by naive_solver. reflexivity.
  - rewrite lookup_insert.
    destruct (decide (user_room (userId s) = r)) as [<-|?]; simpl.
    + rewrite decide_True by auto. reflexivity.
    + rewrite decide_False by naive_solver. reflexivity.
Qed.

Lemma connection_members t_conn t_emit s st :
  ∃ st',
    connection t_conn t_emit s st = Returned tt st'
    ∧ id s ∈ members st' (user_room (userId s))
    ∧ (userRole s = "admin" → id s ∈ members st' "admin")
    ∧ (∀ r, members st r ⊆ members st' r).
Proof.
  destruct (connection_spec t_conn t_emit s st)
    as (st' & Hrun & _ & _ & _ & _ & Hmem & _).
  exists st'. split; [exact Hrun|]. repeat split.
  - rewrite Hmem, decide_True by auto.
    apply elem_of_union_l. by apply elem_of_singleton_2.
  - intros Hrole. rewrite Hmem, decide_True by auto.
    apply elem_of_union_l. by apply elem_of_singleton_2.
  - intros r x Hx. rewrite Hmem.
    destruct (decide (_ ∨ _)); [by apply elem_of_union_r | done].
Qed.

(** ** Admission *)

(** C3: right after a successful admission the connection is a member of
    its own user room, and of the admin room when its role is admin; these
    are the rooms the broadcasts are resolved against. *)
Theorem new_connection_is_in_its_rooms
    (jwt_verify : string → option string) (db : Db) (t_conn t_emit : Z)
    (sid : string) (token : option string) (s : Socket) (st : State) :
  authenticate jwt_verify db sid token = AuthOk s →
  ∃ st',
    connect jwt_verify db t_conn t_emit sid token st = Returned (AuthOk s) st'
    ∧ id s = sid
    ∧ id s ∈ members st' (user_room (userId s))
    ∧ (userRole s = "admin" → id s ∈ members st' "admin").
Proof.
  intros Hauth. unfold connect. rewrite Hauth.
  destruct (connection_spec t_conn t_emit s st)
    as (st' & Hrun & _ & _ & _ & _ & Hmem & _).
  exists st'. repeat split.
  - unfold mbind, M_bind. rewrite Hrun. reflexivity.
  - unfold authenticate in Hauth.
    repeat case_match; try discriminate. by injection Hauth as <-.
  - rewrite Hmem, decide_True by auto. set_solver.
  - intros Hrole. rewrite Hmem, decide_True by auto. set_solver.
Qed.

Lemma new_connection_is_in_its_rooms_witness :
  let ada := mkSocket "sock-9" "u-9" "admin" "a@example.org" "Ada" in
  authenticate sample_verify sample_store "sock-9" (Some "tok:u-9") = AuthOk ada
  ∧ ∃ st',
      connect sample_verify sample_store 10 11 "sock-9" (Some "tok:u-9") init
      = Returned (AuthOk ada) st'
      ∧ id ada = "sock-9"
      ∧ id ada ∈ members st' (user_room (userId ada))
      ∧ (userRole ada = "admin" → id ada ∈ members st' "admin").
Proof.
  intros ada.
  assert (authenticate sample_verify sample_store "sock-9" (Some "tok:u-9")
          = AuthOk ada) as H by (vm_compute; reflexivity).
  split; [exact H|].
  exact (new_connection_is_in_its_rooms sample_verify sample_store
           10 11 "sock-9" (Some "tok:u-9") ada init H).
Defined.

(** ** The admin room *)

(** A request of type [admin] from a connection that is not an admin is
    refused: an error is pushed to the requester and nothing else changes. *)
Lemma admin_type_refused_for_non_admin now s r st :
  userRole s ≠ "admin" →
  handleRoomSubscription now s
    (Some {| room := Some r; type := Some "admin" |}) st
  = Returned tt
      (set_outbox st
         (push {[id s]}
            (error_event (if String.eqb r "" then
                            "Room and type are required for subscription"
                          else "Admin privileges required"))
            (outbox st))).
Proof.
  intros Hrole. unfold handleRoomSubscription, socket_emit. step_handler.
  destruct (String.eqb r ""); simpl; [reflexivity|].
  rewrite (bool_decide_eq_false_2 _ Hrole). reflexivity.
Qed.

(** C2, on the code: the guard of [handleRoomSubscription] looks at the
    [type] of the request and never at the room it names.  A connection
    whose role is not admin that asks for the room ["admin"] under any other
    non-empty type is let in: it joins the room, is tracked under it, gets a
    [subscribed] acknowledgement, and from then on receives the copies of
    booking updates meant for admins. *)
Theorem admin_room_open_under_another_type
    (now : Z) (s : Socket) (ty : string) (st : State) :
  userRole s ≠ "admin" → ty ≠ "" → ty ≠ "admin" →
  let d := {| room := Some "admin"; type := Some ty |} in
  ∃ st',
    handleRoomSubscription now s (Some d) st = Returned tt st'
    ∧ members st' "admin" = {[id s]} ∪ members st "admin"
    ∧ tracked st' "admin" = {[userId s]} ∪ tracked st "admin"
    ∧ queue st' (id s) = queue st (id s) ++ [subscribed_event now d].
Proof.
  intros Hrole Hty Hadm d.
  assert (accepts s d = true) as Hacc.
  { unfold accepts, d; simpl.
    apply String.eqb_neq in Hty. rewrite Hty. simpl.
    rewrite bool_decide_eq_false_2 by congruence. reflexivity. }
  eexists. split; [apply (handleRoomSubscription_accepted now s d st Hacc)|].
  unfold members, tracked, queue; simpl.
  rewrite !lookup_insert_eq, push_lookup, decide_True by set_solver.
  done.
Qed.

Lemma admin_room_open_under_another_type_witness :
  let st := final (run_all [Initialize; Connection 1 2 ada; Connection 3 4 dee] init) in
  let d := {| room := Some "admin"; type := Some "parking" |} in
  userRole dee ≠ "admin" ∧
  ∃ st',
    handleRoomSubscription 5 dee (Some d) st = Returned tt st'
    ∧ members st' "admin" = {[id dee]} ∪ members st "admin"
    ∧ tracked st' "admin" = {[userId dee]} ∪ tracked st "admin"
    ∧ queue st' (id dee) = queue st (id dee) ++ [subscribed_event 5 d].
Proof.
  intros st d.
  assert (userRole dee ≠ "admin") as H1 by (simpl; discriminate).
  assert ("parking" ≠ "") as H2 by discriminate.
  assert ("parking" ≠ "admin") as H3 by discriminate.
  split; [exact H1|].
  exact (admin_room_open_under_another_type 5 dee "parking" st H1 H2 H3).
Defined.

(** The same on a run: Dee, a plain user, ends up receiving the admin copy
    of another user's booking update. *)
Example plain_user_reads_admin_feed :
  let st := final (run_all
    [ Initialize; Connection 1 2 ada; Connection 3 4 dee;
      Message no_store 5 dee
        (Subscribe (Some {| room := Some "admin"; type := Some "parking" |}));
      BookingUpdate 6 7 "u-5" "b-77" {[ "status" := JStr "confirmed" ]} ] init) in
  userRole dee = "user"
  ∧ id dee ∈ members st "admin"
  ∧ (name <$> queue st "sock-1") = ["connected"; "subscribed"; "booking_updated"]
  ∧ (last (queue st "sock-1") ≫= λ ev, payload ev !! "user_id") = Some (JStr "u-5").
Proof.
  intros st. split; [reflexivity|]. split.
  - apply (bool_decide_unpack _). vm_compute. exact I.
  - vm_compute. split; reflexivity.
Qed.

(** ** Subscribing twice *)

Lemma filter_eq_absent (x : string) (l : list string) :
  x ∉ l → filter (λ y, y = x) l = [].
Proof.
  induction l as [|y l IH]; [done|].
  intros Hx. apply not_elem_of_cons in Hx as [Hxy Hxl].
  rewrite filter_cons_False by congruence. by apply IH.
Qed.

Lemma listed_once (x : string) (l : list string) :
  NoDup l → x ∈ l → length (filter (λ y, y = x) l) = 1%nat.
Proof.
  induction 1 as [|y l Hy Hnd IH]; intros Hx.
  - by apply elem_of_nil in Hx.
  - destruct (decide (y = x)) as [->|Hne].
    + rewrite filter_cons_True by done.
      rewrite filter_eq_absent by done. reflexivity.
    + rewrite filter_cons_False by done.
      apply elem_of_cons in Hx as [->|Hx]; [done|]. by apply IH.
Qed.

Lemma reported_once (x : string) (X : gset string) :
  x ∈ X → length (filter (λ y, y = x) (elements X)) = 1%nat.
Proof.
  intros Hx. apply listed_once.
  - apply NoDup_elements.
  - by apply elem_of_elements.
Qed.

(** C7: a subscribe request that is accepted, sent twice by the same
    connection for the same room, leaves one membership: the second call
    changes neither the tracking map nor the rooms, and both the tracked
    subscribers and the members of the room list the connection once. *)
Theorem subscribing_twice_counts_once
    (now1 now2 : Z) (s : Socket) (d : RoomRequest) (st : State) :
  accepts s d = true →
  ∃ st1 st2,
    handleRoomSubscription now1 s (Some d) st = Returned tt st1
    ∧ handleRoomSubscription now2 s (Some d) st1 = Returned tt st2
    ∧ roomSubscriptions st2 = roomSubscriptions st1
    ∧ rooms st2 = rooms st1
    ∧ length (filter (λ u, u = userId s)
                (elements (tracked st2 (room_name d)))) = 1%nat
    ∧ length (filter (λ c, c = id s)
                (elements (members st2 (room_name d)))) = 1%nat.
Proof.
  intros Hacc. eexists _, _.
  split; [apply (handleRoomSubscription_accepted _ _ _ _ Hacc)|].
  split; [apply (handleRoomSubscription_accepted _ _ _ _ Hacc)|].
  unfold tracked, members; simpl. rewrite !lookup_insert_eq; simpl.
  rewrite !insert_insert_eq.
  repeat split.
  - f_equal. set_solver.
  - f_equal. set_solver.
  - apply reported_once. set_solver.
  - apply reported_once. set_solver.
Qed.

Lemma subscribing_twice_counts_once_witness :
  let d := {| room := Some "parking_lot:42"; type := Some "parking" |} in
  accepts dee d = true ∧
  ∃ st1 st2,
    handleRoomSubscription 5 dee (Some d) init = Returned tt st1
    ∧ handleRoomSubscription 6 dee (Some d) st1 = Returned tt st2
    ∧ roomSubscriptions st2 = roomSubscriptions st1
    ∧ rooms st2 = rooms st1
    ∧ length (filter (λ u, u = userId dee)
                (elements (tracked st2 (room_name d)))) = 1%nat
    ∧ length (filter (λ c, c = id dee)
                (elements (members st2 (room_name d)))) = 1%nat.
Proof.
  intros d.
  assert (accepts dee d = true) as H by reflexivity.
  split; [exact H|].
  exact (subscribing_twice_counts_once 5 6 dee d init H).
Defined.

(** ** One user on two devices *)

Lemma broadcastNotification_spec now uid n st :
  io st = true →
  broadcastNotification now uid n st
  = Returned tt
      (set_outbox st
         (push (members st (user_room uid))
               (mkEvent "notification" (stamped now n)) (outbox st))).
Proof.
  intros Hio. unfold broadcastNotification, io_to_emit. step_handler.
  rewrite Hio. reflexivity.
Qed.

(** C1 as stated fails: [connectedUsers] is keyed by user id, so the second
    connection of a user replaces the entry of the first.  With Dee
    connected from two devices the registry holds one entry, that of the
    later connection, and none for the earlier one. *)
Lemma second_device_replaces_registry_entry :
  let st := final (run_all
    [Initialize; Connection 1 2 dee; Connection 3 4 dee_phone] init) in
  id dee ∈ sockets st ∧ id dee_phone ∈ sockets st
  ∧ userId dee = userId dee_phone
  ∧ fst (getConnectedUsersInfo st) = 1%nat
  ∧ ¬ (has_own_entry st dee ∧ has_own_entry st dee_phone).
Proof.
  intros st.
  split; [apply (bool_decide_unpack _); vm_compute; exact I|].
  split; [apply (bool_decide_unpack _); vm_compute; exact I|].
  split; [reflexivity|]. split; [vm_compute; reflexivity|].
  intros [(key & info & Hlook & Hid) _].
  assert (connectedUsers st = {[ "u-1" := registry_entry 3 dee_phone ]}) as Hreg
    by (vm_compute; reflexivity).
  rewrite Hreg in Hlook.
  apply lookup_singleton_Some in Hlook as [_ <-].
  simpl in Hid. discriminate.
Qed.

(** Right after two connections of the same user, one following the other,
    the registry holds one entry for that user, describing the later
    connection, while both connections are members of the user's room;
    [broadcastNotification] for that user pushes the notification, with its
    timestamp, to the outbox of both.  The general case, with anything
    happening around the two connects, comes further down. *)
Theorem notification_reaches_both_devices
    (t1 t2 t3 t4 now : Z) (s1 s2 : Socket) (notification : JsObject)
    (st0 : State) :
  io st0 = true → userId s1 = userId s2 →
  ∃ st st',
    run_all [Connection t1 t2 s1; Connection t3 t4 s2] st0 = Returned tt st
    ∧ connectedUsers st !! userId s1 = Some (registry_entry t3 s2)
    ∧ id s1 ∈ members st (user_room (userId s1))
    ∧ id s2 ∈ members st (user_room (userId s1))
    ∧ broadcastNotification now (userId s1) notification st = Returned tt st'
    ∧ queue st' (id s1)
      = queue st (id s1) ++ [mkEvent "notification" (stamped now notification)]
    ∧ queue st' (id s2)
      = queue st (id s2) ++ [mkEvent "notification" (stamped now notification)].
Proof.
  intros Hio Huid.
  destruct (connection_spec t1 t2 s1 st0)
    as (sta & Hrun1 & Hio1 & _ & _ & _ & _ & _).
  destruct (connection_members t1 t2 s1 st0)
    as (sta' & Hrun1' & Hin1 & _ & _).
  assert (sta' = sta) as -> by congruence. clear Hrun1'.
  destruct (connection_spec t3 t4 s2 sta)
    as (st & Hrun2 & Hio2 & Hreg2 & _ & _ & _ & _).
  destruct (connection_members t3 t4 s2 sta)
    as (st_ & Hrun2' & Hin2 & _ & Hmono).
  assert (st_ = st) as -> by congruence. clear Hrun2'.
  apply Hmono in Hin1. rewrite <- Huid in Hin2.
  assert (io st = true) as Hio' by congruence.
  exists st. eexists. split.
  { simpl. unfold mbind, M_bind. rewrite Hrun1, Hrun2. reflexivity. }
  split; [by rewrite Hreg2, Huid, lookup_insert_eq|].
  split; [exact Hin1|]. split; [exact Hin2|].
  split; [apply (broadcastNotification_spec _ _ _ _ Hio')|].
  unfold queue; simpl. rewrite !push_lookup, !decide_True by done. done.
Qed.

Lemma notification_reaches_both_devices_witness :
  let st0 := final (initializeWebSocket init) in
  io st0 = true ∧ userId dee = userId dee_phone ∧
  ∃ st st',
    run_all [Connection 1 2 dee; Connection 3 4 dee_phone] st0 = Returned tt st
    ∧ connectedUsers st !! userId dee = Some (registry_entry 3 dee_phone)
    ∧ id dee ∈ members st (user_room (userId dee))
    ∧ id dee_phone ∈ members st (user_room (userId dee))
    ∧ broadcastNotification 9 (userId dee) {[ "title" := JStr "Booking confirmed" ]} st
      = Returned tt st'
    ∧ queue st' (id dee)
      = queue st (id dee)
        ++ [mkEvent "notification" (stamped 9 {[ "title" := JStr "Booking confirmed" ]})]
    ∧ queue st' (id dee_phone)
      = queue st (id dee_phone)
        ++ [mkEvent "notification" (stamped 9 {[ "title" := JStr "Booking confirmed" ]})].
Proof.
  intros st0.
  assert (io st0 = true) as H1 by reflexivity.
  assert (userId dee = userId dee_phone) as H2 by reflexivity.
  split; [exact H1|]. split; [exact H2|].
  exact (notification_reaches_both_devices 1 2 3 4 9 dee dee_phone
           {[ "title" := JStr "Booking confirmed" ]} st0 H1 H2).
Defined.

(** ** Timestamps on outbound events *)

Lemma pushed_refl P st : pushed P st st.
Proof. intros sid. exists []. by rewrite app_nil_r. Qed.

Lemma pushed_quiet P st0 st st' :
  outbox st' = outbox st → pushed P st0 st → pushed P st0 st'.
Proof. intros Hob H sid. unfold queue. rewrite Hob. apply H. Qed.

Lemma pushed_push P st0 st targets ev :
  P ev → pushed P st0 st →
  pushed P st0 (set_outbox st (push targets ev (outbox st))).
Proof.
  intros Hev H sid. destruct (H sid) as (evs & Hq & Hall).
  unfold queue in *; simpl. rewrite push_lookup.
  destruct (decide (sid ∈ targets)).
  - exists (evs ++ [ev]). split.
    + by rewrite Hq, app_assoc.
    + apply Forall_app. split; [done|]. by constructor.
  - by exists evs.
Qed.

Section pushed.
Context (P : Event → Prop) (st0 : State).

Lemma preserves_quiet f :
  (∀ st, outbox (f st) = outbox st) → preserves (pushed P st0) (modify f).
Proof. intros Hf st H. simpl. exact (pushed_quiet P st0 st (f st) (Hf st) H). Qed.

Lemma preserves_socket_emit s n p :
  P (mkEvent n p) → preserves (pushed P st0) (socket_emit s n p).
Proof. intros Hev st H. by apply pushed_push. Qed.

Lemma preserves_io_to_emit r n p :
  P (mkEvent n p) → preserves (pushed P st0) (io_to_emit r n p).
Proof. intros Hev st H. by apply pushed_push. Qed.

Lemma preserves_io_emit n p :
  P (mkEvent n p) → preserves (pushed P st0) (io_emit n p).
Proof. intros Hev st H. by apply pushed_push. Qed.
End pushed.

Lemma error_is_bare message :
  stamped_unless_error (mkEvent "error" {[ "message" := JStr message ]}).
Proof. left. by exists message. Qed.

Lemma stamp_is_stamped n now p :
  n ≠ "error" →
  stamped_unless_error (mkEvent n (<["timestamp" := JIsoDate now]> p)).
Proof.
  intros Hn. right. split; [exact Hn|]. exists now. apply lookup_insert_eq.
Qed.

#[export] Hint Resolve error_is_bare : handlers.
#[export] Hint Extern 1 (stamped_unless_error (mkEvent _ (stamped _ _))) =>
  apply stamp_is_stamped; discriminate : handlers.
#[export] Hint Extern 1 (stamped_unless_error (mkEvent _ (<[_ := _]> _))) =>
  apply stamp_is_stamped; discriminate : handlers.

(** Walks through the body of a handler, one statement at a time. *)
Ltac walk_handler :=
  repeat first
    [ progress intros
    | apply preserves_bind
    | apply preserves_try_catch
    | apply preserves_destructure
    | apply preserves_get_state
    | apply preserves_ret
    | apply preserves_throw
    | apply preserves_socket_emit; auto with handlers
    | apply preserves_io_to_emit; auto with handlers
    | apply preserves_io_emit; auto with handlers
    | apply preserves_quiet; intros; simpl; repeat case_match; reflexivity
    | match goal with
      | |- preserves _ (if ?b then _ else _) => destruct b
      | |- preserves _ (match ?x with _ => _ end) => destruct x
      end ].

Lemma on_message_pushes st0 db now s msg :
  preserves (pushed stamped_unless_error st0) (on_message db now s msg).
Proof.
  destruct msg; simpl;
    unfold handleRoomSubscription, handleRoomUnsubscription,
      handleParkingAvailabilityRequest, handleBookingStatusRequest,
      handleLiveStatsRequest, getLiveStatistics,
      socket_join, socket_leave;
    walk_handler.
Qed.

Lemma run_pushes st0 a :
  preserves (pushed stamped_unless_error st0) (run a).
Proof.
  destruct a; simpl; try apply on_message_pushes;
    unfold initializeWebSocket, connection, on_connection, disconnect,
      on_disconnect, sio_accept, sio_release, socket_join,
      broadcastParkingUpdate, broadcastBookingUpdate, broadcastPaymentUpdate,
      broadcastNotification, broadcastSystemAnnouncement;
    walk_handler.
Qed.

(** C4 as stated fails: the error events carry a message and no timestamp.
    A subscribe request without a room is answered by such an event. *)
Lemma subscription_error_has_no_timestamp :
  let st := final (on_message no_store 5 dee
                     (Subscribe (Some {| room := None; type := Some "parking" |}))
                     init) in
  ∃ ev, queue st (id dee) = [ev] ∧ name ev = "error" ∧ ¬ timestamped ev.
Proof.
  intros st.
  exists (error_event "Room and type are required for subscription").
  split; [vm_compute; reflexivity|]. split; [reflexivity|].
  intros [t Ht]. vm_compute in Ht. discriminate.
Qed.

(** C4, amended: whatever happens to the module, every event it pushes to
    a client is either an error event, which carries a message and nothing
    else, or an event of another kind carrying a [timestamp] field that
    holds the ISO-8601 rendering of an instant. *)
Theorem pushed_events_are_stamped_unless_error (a : Action) (st : State) :
  pushed stamped_unless_error st (final (run a st)).
Proof. apply run_pushes. apply pushed_refl. Qed.

(** ** No empty topic is kept *)

Lemma no_empty_entry_empty : no_empty_entry ∅.
Proof. intros r subs H. by rewrite lookup_empty in H. Qed.

Lemma no_empty_entry_add m r x (X : gset string) :
  no_empty_entry m → no_empty_entry (<[r := {[x]} ∪ X]> m).
Proof.
  intros Hm k subs. rewrite lookup_insert. case_decide.
  - intros [= <-] Hempty.
    assert (x ∈ ({[x]} ∪ X)) as Hx
      by (apply elem_of_union_l; by apply elem_of_singleton_2).
    rewrite Hempty in Hx. by apply not_elem_of_empty in Hx.
  - apply Hm.
Qed.

Lemma no_empty_entry_leave m r x :
  no_empty_entry m → no_empty_entry (partial_alter (leave x) r m).
Proof.
  intros Hm k subs. rewrite lookup_partial_alter. case_decide.
  - unfold leave. destruct (m !! r); simpl; [|done].
    apply without_Some_nonempty.
  - apply Hm.
Qed.

Lemma no_empty_entry_omap m x : no_empty_entry (omap (without x) m).
Proof.
  intros k subs. rewrite lookup_omap.
  destruct (m !! k); simpl; [|done]. apply without_Some_nonempty.
Qed.

Lemma no_empty_entry_delete m r :
  no_empty_entry m → no_empty_entry (delete r m).
Proof.
  intros Hm k subs. rewrite lookup_delete. case_decide; [done|]. apply Hm.
Qed.

Lemma no_empty_entry_insert m r (X : gset string) :
  size X ≠ 0%nat → no_empty_entry m → no_empty_entry (<[r := X]> m).
Proof.
  intros HX Hm k subs. rewrite lookup_insert. case_decide.
  - intros [= <-] Hempty. apply HX. rewrite Hempty. apply size_empty.
  - apply Hm.
Qed.

Lemma no_empty_topic_outbox st ob :
  no_empty_topic st → no_empty_topic (set_outbox st ob).
Proof. intros [H1 H2]. split; assumption. Qed.

Lemma keeps_socket_emit s n p : preserves no_empty_topic (socket_emit s n p).
Proof. intros st H. by apply no_empty_topic_outbox. Qed.

Lemma keeps_io_to_emit r n p : preserves no_empty_topic (io_to_emit r n p).
Proof. intros st H. by apply no_empty_topic_outbox. Qed.

Lemma keeps_io_emit n p : preserves no_empty_topic (io_emit n p).
Proof. intros st H. by apply no_empty_topic_outbox. Qed.

Lemma keeps_socket_join s r : preserves no_empty_topic (socket_join s r).
Proof.
  intros st [H1 H2]. split; [exact H1|]. simpl.
  by apply no_empty_entry_add.
Qed.

Lemma keeps_socket_leave s r : preserves no_empty_topic (socket_leave s r).
Proof.
  intros st [H1 H2]. split; [exact H1|]. simpl.
  by apply no_empty_entry_leave.
Qed.

Lemma keeps_sio_accept s : preserves no_empty_topic (sio_accept s).
Proof. intros st [H1 H2]. split; assumption. Qed.

Lemma keeps_sio_release s : preserves no_empty_topic (sio_release s).
Proof.
  intros st [H1 H2]. split; [exact H1|]. simpl. apply no_empty_entry_omap.
Qed.

Lemma keeps_on_disconnect s : preserves no_empty_topic (on_disconnect s).
Proof.
  intros st [H1 H2]. split; [|exact H2]. simpl. apply no_empty_entry_omap.
Qed.

Lemma keeps_initializeWebSocket : preserves no_empty_topic initializeWebSocket.
Proof.
  intros st [H1 H2]. split; [exact H1|]. simpl. apply no_empty_entry_empty.
Qed.

Lemma keeps_registry f :
  preserves no_empty_topic
    (modify (λ st, set_connectedUsers st (f st))).
Proof. intros st [H1 H2]. split; assumption. Qed.

Lemma keeps_handleRoomSubscription now s data :
  preserves no_empty_topic (handleRoomSubscription now s data).
Proof.
  intros st [H1 H2]. destruct data as [d|]; [|by split].
  destruct (accepts s d) eqn:Hacc.
  - rewrite (handleRoomSubscription_accepted _ _ _ _ Hacc).
    split; simpl; by apply no_empty_entry_add.
  - destruct (handleRoomSubscription_refused now s d st Hacc) as [m ->].
    by split.
Qed.

Lemma keeps_handleRoomUnsubscription now s data :
  preserves no_empty_topic (handleRoomUnsubscription now s data).
Proof.
  intros st [H1 H2]. destruct data as [d|]; [|by split].
  destruct (truthy (room d)) eqn:Hroom.
  - rewrite (handleRoomUnsubscription_done _ _ _ _ Hroom).
    split; simpl; by apply no_empty_entry_leave.
  - rewrite (handleRoomUnsubscription_refused _ _ _ _ Hroom). by split.
Qed.

#[export] Hint Resolve keeps_socket_emit keeps_io_to_emit keeps_io_emit
  keeps_socket_join keeps_socket_leave keeps_sio_accept keeps_sio_release
  keeps_on_disconnect keeps_initializeWebSocket keeps_registry
  keeps_handleRoomSubscription keeps_handleRoomUnsubscription : handlers.

Ltac walk_keeping :=
  repeat first
    [ progress intros
    | solve [auto with handlers]
    | apply preserves_bind
    | apply preserves_try_catch
    | match goal with
      | |- preserves _ (if ?b then _ else _) => destruct b
      | |- preserves _ (match ?x with _ => _ end) => destruct x
      end ].

Lemma run_keeps_no_empty_topic a : preserves no_empty_topic (run a).
Proof.
  destruct a as [| | db now s msg | | | | | |]; simpl;
    [ | | destruct msg; simpl | | | | | | ];
    unfold connection, on_connection, disconnect,
      handleParkingAvailabilityRequest, handleBookingStatusRequest,
      handleLiveStatsRequest, getLiveStatistics,
      broadcastParkingUpdate, broadcastBookingUpdate, broadcastPaymentUpdate,
      broadcastNotification, broadcastSystemAnnouncement;
    walk_keeping.
Qed.

Lemma run_all_keeps_no_empty_topic l : preserves no_empty_topic (run_all l).
Proof.
  induction l as [|a l IH]; simpl.
  - apply preserves_ret.
  - apply preserves_bind; [apply run_keeps_no_empty_topic | intros _; exact IH].
Qed.

(** C6: no topic with zero subscribers stays in the index.  This holds of
    the tracking map and of the rooms in every state the module can reach
    from its start, it is kept by every single operation (subscribe,
    unsubscribe and disconnect among them), and a room that is absent is
    created by the first accepted subscription to it, with that subscriber
    in it. *)
Theorem empty_topics_are_dropped :
  (∀ trace, no_empty_topic (final (run_all trace init)))
  ∧ (∀ a st, no_empty_topic st → no_empty_topic (final (run a st)))
  ∧ (∀ now s d st,
       accepts s d = true →
       roomSubscriptions st !! room_name d = None →
       ∃ st',
         handleRoomSubscription now s (Some d) st = Returned tt st'
         ∧ roomSubscriptions st' !! room_name d = Some {[userId s]}
         ∧ (rooms st !! room_name d = None →
            rooms st' !! room_name d = Some {[id s]})).
Proof.
  split; [|split].
  - intros trace. apply run_all_keeps_no_empty_topic.
    split; apply no_empty_entry_empty.
  - intros a st. apply run_keeps_no_empty_topic.
  - intros now s d st Hacc Habsent. eexists.
    split; [apply (handleRoomSubscription_accepted _ _ _ _ Hacc)|].
    simpl. rewrite !lookup_insert_eq. unfold tracked, members.
    rewrite Habsent. simpl. split.
    + f_equal. apply leibniz_equiv. apply (right_id ∅ (∪)).
    + intros ->. simpl. f_equal. apply leibniz_equiv. apply (right_id ∅ (∪)).
Qed.

Lemma empty_topics_are_dropped_witness :
  let d := {| room := Some "parking_lot:42"; type := Some "parking" |} in
  let trace :=
    [ Initialize; Connection 1 2 dee; Message no_store 3 dee (Subscribe (Some d));
      Message no_store 4 dee (Unsubscribe (Some d)) ] in
  accepts dee d = true
  ∧ roomSubscriptions init !! room_name d = None
  ∧ no_empty_topic (final (run_all trace init))
  ∧ roomSubscriptions (final (run_all trace init)) !! room_name d = None
  ∧ ∃ st',
      handleRoomSubscription 3 dee (Some d) init = Returned tt st'
      ∧ roomSubscriptions st' !! room_name d = Some {[userId dee]}
      ∧ (rooms init !! room_name d = None →
         rooms st' !! room_name d = Some {[id dee]}).
Proof.
  intros d trace.
  destruct empty_topics_are_dropped as (Hreach & _ & Hlazy).
  assert (accepts dee d = true) as H1 by reflexivity.
  assert (roomSubscriptions init !! room_name d = None) as H2 by reflexivity.
  split; [exact H1|]. split; [exact H2|].
  split; [apply Hreach|].
  split; [vm_compute; reflexivity|].
  exact (Hlazy 3 dee d init H1 H2).
Defined.

(** ** Disconnecting a connection that is not there *)

Lemma detached_members st s r : detached st s → id s ∉ members st r.
Proof.
  intros [_ H]. unfold members.
  destruct (rooms st !! r) as [m|] eqn:Hr; simpl.
  - exact (H r m Hr).
  - apply not_elem_of_empty.
Qed.

Lemma disconnect_spec s st :
  disconnect s st
  = Returned tt
      {| io := io st;
         connectedUsers := delete (userId s) (connectedUsers st);
         roomSubscriptions := omap (without (userId s)) (roomSubscriptions st);
         sockets := sockets st ∖ {[id s]};
         rooms := omap (without (id s)) (rooms st);
         outbox := outbox st |}.
Proof. reflexivity. Qed.

Lemma disconnected_is_detached s st : detached (final (disconnect s st)) s.
Proof.
  rewrite disconnect_spec. split; simpl.
  - apply not_elem_of_difference. right. by apply elem_of_singleton_2.
  - intros r m. rewrite lookup_omap.
    destruct (rooms st !! r) as [m0|]; simpl; [|done].
    intros H. rewrite (without_elem _ (id s) _ _ H). naive_solver.
Qed.

(** The cleanup works by user id.  With two devices of a user connected,
    when the first goes away the phone loses its registry entry and its
    tracked subscription while it stays in the room and keeps receiving the
    room's events. *)
Example first_device_leaving_clears_the_second :
  let st := final (run_all
    [ Initialize; Connection 1 2 dee; Connection 3 4 dee_phone;
      Message no_store 5 dee_phone (Subscribe (Some lot_updates));
      Disconnect dee ] init) in
  id dee_phone ∈ sockets st
  ∧ id dee_phone ∈ members st "parking_updates"
  ∧ connectedUsers st !! userId dee_phone = None
  ∧ roomSubscriptions st !! "parking_updates" = None.
Proof.
  intros st. repeat split;
    first [reflexivity | apply (bool_decide_unpack _); vm_compute; exact I].
Qed.


(** ** The role is fixed when the connection is made *)

Lemma view_set_outbox st ob : view (set_outbox st ob) = view st.
Proof. reflexivity. Qed.

Lemma view_eq st st' : view st = view st' → st' = set_outbox st (outbox st').
Proof.
  destruct st, st'. unfold view, set_outbox; simpl.
  intros [= -> -> -> -> ->]. reflexivity.
Qed.

(** The three requests for data answer the requester and do nothing else. *)
Lemma data_request_only_pushes db now s msg st :
  match msg with Subscribe _ | Unsubscribe _ => False | _ => True end →
  ∃ ob, on_message db now s msg st = Returned tt (set_outbox st ob).
Proof.
  destruct st.
  destruct msg as [| |data|data|]; intros Hmsg; try done; simpl;
    unfold handleParkingAvailabilityRequest, handleBookingStatusRequest,
      handleLiveStatsRequest, getLiveStatistics, socket_emit;
    step_handler.
  - destruct data as [d|]; simpl; [|eexists; reflexivity].
    destruct (parking_lots db _); eexists; reflexivity.
  - destruct data as [d|]; simpl; [|eexists; reflexivity].
    destruct (bookings db _ _) as [[b|]| |]; eexists; reflexivity.
  - case_bool_decide; eexists; reflexivity.
Qed.

Lemma on_message_view db db' now s msg st ob :
  view (final (on_message db' now s msg (set_outbox st ob)))
  = view (final (on_message db now s msg st))
  ∧ returns (on_message db' now s msg (set_outbox st ob))
    = returns (on_message db now s msg st).
Proof.
  destruct msg as [data|data|data|data|].
  - simpl. destruct data as [d|]; [|split; reflexivity].
    destruct (accepts s d) eqn:Hacc.
    + rewrite !(handleRoomSubscription_accepted _ _ _ _ Hacc).
      split; reflexivity.
    + destruct (handleRoomSubscription_refused now s d st Hacc) as [m ->].
      destruct (handleRoomSubscription_refused now s d (set_outbox st ob) Hacc)
        as [m' ->].
      split; reflexivity.
  - simpl. destruct data as [d|]; [|split; reflexivity].
    destruct (truthy (room d)) eqn:Hroom.
    + rewrite !(handleRoomUnsubscription_done _ _ _ _ Hroom).
      split; reflexivity.
    + rewrite !(handleRoomUnsubscription_refused _ _ _ _ Hroom).
      split; reflexivity.
  - destruct (data_request_only_pushes db now s (GetParkingAvailability data) st I)
      as [o1 ->].
    destruct (data_request_only_pushes db' now s (GetParkingAvailability data)
                (set_outbox st ob) I) as [o2 ->].
    split; reflexivity.
  - destruct (data_request_only_pushes db now s (GetBookingStatus data) st I)
      as [o1 ->].
    destruct (data_request_only_pushes db' now s (GetBookingStatus data)
                (set_outbox st ob) I) as [o2 ->].
    split; reflexivity.
  - destruct (data_request_only_pushes db now s GetLiveStats st I) as [o1 ->].
    destruct (data_request_only_pushes db' now s GetLiveStats
                (set_outbox st ob) I) as [o2 ->].
    split; reflexivity.
Qed.

Lemma run_view a a' st ob :
  same_but_store a a' →
  view (final (run a' (set_outbox st ob))) = view (final (run a st))
  ∧ returns (run a' (set_outbox st ob)) = returns (run a st).
Proof.
  intros [db db' now s msg|b]; [apply on_message_view|].
  destruct b as [| | db now s msg | | | | | |]; simpl;
    try apply on_message_view;
    unfold initializeWebSocket, connection, on_connection, sio_accept,
      socket_join, socket_emit, disconnect, sio_release, on_disconnect,
      broadcastParkingUpdate, broadcastBookingUpdate, broadcastPaymentUpdate,
      broadcastNotification, broadcastSystemAnnouncement, io_to_emit, io_emit;
    step_handler;
    try (destruct (io st); simpl);
    try case_bool_decide; split; reflexivity.
Qed.

Lemma run_all_view l l' :
  Forall2 same_but_store l l' →
  ∀ st ob,
    view (final (run_all l' (set_outbox st ob))) = view (final (run_all l st))
    ∧ returns (run_all l' (set_outbox st ob)) = returns (run_all l st).
Proof.
  induction 1 as [|a a' l l' Ha _ IH]; intros st ob; [split; reflexivity|].
  destruct (run_view a a' st ob Ha) as [Hview Hret].
  simpl. unfold mbind, M_bind.
  destruct (run a st) as [[] st1|e st1],
           (run a' (set_outbox st ob)) as [[] st1'|e' st1'];
    simpl in *; try discriminate.
  - rewrite (view_eq _ _ (eq_sym Hview)). apply IH.
  - split; [exact Hview|reflexivity].
Qed.

(** The role a connection acts under is the one read from the store
    when it connected.  Whatever the store says while messages are handled
    (so also after the user's role there has become admin), the registry
    with its cached roles, the tracked subscriptions and the rooms come out
    the same; a connection whose cached role is not admin is still refused a
    subscription of type [admin] and its request for live statistics is
    still dropped; and a new handshake reads the role afresh, so that a
    connection made after the change is registered as admin and joins the
    admin room. *)
Theorem role_is_fixed_at_connect :
  (∀ l l' st,
     Forall2 same_but_store l l' →
     view (final (run_all l' st)) = view (final (run_all l st))
     ∧ (∀ uid, role <$> connectedUsers (final (run_all l' st)) !! uid
               = role <$> connectedUsers (final (run_all l st)) !! uid)
     ∧ members (final (run_all l' st)) "admin"
       = members (final (run_all l st)) "admin")
  ∧ (∀ db now s r st,
       userRole s ≠ "admin" →
       (∃ message,
          on_message db now s
            (Subscribe (Some {| room := Some r; type := Some "admin" |})) st
          = Returned tt
              (set_outbox st (push {[id s]} (error_event message) (outbox st))))
       ∧ on_message db now s GetLiveStats st = Returned tt st)
  ∧ (∀ jwt_verify db t_conn t_emit sid token uid row st,
       truthy token = true →
       token ≫= jwt_verify = Some uid →
       users_down db = false →
       users db !! uid = Some row →
       let s := {| id := sid; userId := uid; userRole := row_role row;
                   userEmail := row_email row; userName := row_name row |} in
       ∃ st',
         connect jwt_verify db t_conn t_emit sid token st
         = Returned (AuthOk s) st'
         ∧ connectedUsers st' !! uid = Some (registry_entry t_conn s)
         ∧ (row_role row = "admin" → sid ∈ members st' "admin")).
Proof.
  split; [|split].
  - intros l l' st H.
    assert (view (final (run_all l' st)) = view (final (run_all l st)))
      as Hview.
    { destruct (run_all_view l l' H st (outbox st)) as [Hview _].
      destruct st. exact Hview. }
    split; [exact Hview|].
    unfold view, members in *. injection Hview as _ -> _ _ ->.
    split; [intros uid|]; reflexivity.
  - intros db now s r st Hrole. split.
    + eexists. simpl. apply (admin_type_refused_for_non_admin _ _ _ _ Hrole).
    + simpl. rewrite bool_decide_eq_false_2 by done. reflexivity.
  - intros jwt_verify db t_conn t_emit sid token uid row st
      Htok Hjwt Hup Hrow s.
    assert (authenticate jwt_verify db sid token = AuthOk s) as Hauth.
    { unfold authenticate. rewrite Htok, Hjwt, Hup, Hrow. reflexivity. }
    destruct (connection_spec t_conn t_emit s st)
      as (st' & Hrun & _ & Hreg & _ & _ & _ & _).
    destruct (connection_members t_conn t_emit s st)
      as (st_ & Hrun' & _ & Hadmin & _).
    assert (st_ = st') as -> by congruence.
    exists st'. split; [|split].
    + unfold connect. rewrite Hauth. unfold mbind, M_bind. rewrite Hrun.
      reflexivity.
    + rewrite Hreg. apply lookup_insert_eq.
    + exact Hadmin.
Qed.

Lemma role_is_fixed_at_connect_witness :
  let before :=
    [ Initialize; Connection 1 2 dee;
      Message sample_store 5 dee (Subscribe (Some admin_feed));
      Message sample_store 6 dee GetLiveStats ] in
  let after :=
    [ Initialize; Connection 1 2 dee;
      Message promoted_store 5 dee (Subscribe (Some admin_feed));
      Message promoted_store 6 dee GetLiveStats ] in
  let st := final (run_all after init) in
  let dee_again := mkSocket "sock-3" "u-1" "admin" "d@example.org" "Dee" in
  Forall2 same_but_store before after
  ∧ view (final (run_all after init)) = view (final (run_all before init))
  ∧ members (final (run_all after init)) "admin"
    = members (final (run_all before init)) "admin"
  ∧ userRole dee ≠ "admin"
  ∧ on_message promoted_store 7 dee GetLiveStats st = Returned tt st
  ∧ ∃ st',
      connect sample_verify promoted_store 8 9 "sock-3" (Some "tok:u-1") st
      = Returned (AuthOk dee_again) st'
      ∧ connectedUsers st' !! "u-1" = Some (registry_entry 8 dee_again)
      ∧ (row_role (mkUserRow "Dee" "d@example.org" "admin") = "admin" →
         "sock-3" ∈ members st' "admin").
Proof.
  intros before after st dee_again.
  destruct role_is_fixed_at_connect as (Hview & Hgate & Hagain).
  assert (Forall2 same_but_store before after) as H1
    by (repeat constructor).
  assert (userRole dee ≠ "admin") as H2 by (simpl; discriminate).
  split; [exact H1|].
  split; [exact (proj1 (Hview before after init H1))|].
  split; [exact (proj2 (proj2 (Hview before after init H1)))|].
  split; [exact H2|].
  split; [exact (proj2 (Hgate promoted_store 7 dee "admin" st H2))|].
  exact (Hagain sample_verify promoted_store 8 9 "sock-3" (Some "tok:u-1")
           "u-1" (mkUserRow "Dee" "d@example.org" "admin") st
           eq_refl eq_refl eq_refl eq_refl).
Defined.


(** * Further properties of the service and of its callers *)

(** ** Observations after the primitives *)

Lemma queue_after_push st targets ev sid :
  queue (set_outbox st (push targets ev (outbox st))) sid
  = queue st sid ++ delivered targets sid ev.
Proof.
  unfold queue, delivered; simpl. rewrite push_lookup.
  destruct (decide (sid ∈ targets)); [reflexivity|by rewrite app_nil_r].
Qed.

Lemma leave_default x (m : gmap string (gset string)) r r' :
  default ∅ (partial_alter (leave x) r m !! r')
  = if decide (r' = r) then default ∅ (m !! r') ∖ {[x]} else default ∅ (m !! r').
Proof.
  rewrite lookup_partial_alter.
  destruct (decide (r = r')) as [->|Hne].
  - rewrite decide_True by done. unfold leave.
    destruct (m !! r') as [subs|]; simpl.
    + apply without_default.
    + apply leibniz_equiv. intros y. rewrite elem_of_difference.
      split; [by intros ?%not_elem_of_empty | by intros [?%not_elem_of_empty _]].
  - rewrite decide_False by congruence. reflexivity.
Qed.

Lemma user_room_truthy uid : truthy (Some (user_room uid)) = true.
Proof. reflexivity. Qed.

(** ** Unsubscribing *)

Lemma unsubscription_observed now s d st :
  truthy (room d) = true →
  ∃ st',
    handleRoomUnsubscription now s (Some d) st = Returned tt st'
    ∧ (∀ r, members st' r
            = if decide (r = room_name d) then members st r ∖ {[id s]}
              else members st r)
    ∧ (∀ r, tracked st' r
            = if decide (r = room_name d) then tracked st r ∖ {[userId s]}
              else tracked st r)
    ∧ (∀ sid, queue st' sid
              = queue st sid ++ delivered {[id s]} sid (unsubscribed_event now d))
    ∧ connectedUsers st' = connectedUsers st
    ∧ sockets st' = sockets st
    ∧ io st' = io st.
Proof.
  intros Hroom. eexists.
  split; [apply (handleRoomUnsubscription_done _ _ _ _ Hroom)|].
  split; [|split; [|split; [|done]]].
  - intros r. unfold members; simpl. apply leave_default.
  - intros r. unfold tracked; simpl. apply leave_default.
  - intros sid. apply (queue_after_push st).
Qed.

(** X1: an unsubscribe request that names a room takes the connection out
    of that room and the user out of the room's tracked subscribers,
    whether or not they were there, asks for no type and checks no role; the
    other rooms, the registry and the connected sockets stay as they were,
    and the requester alone gets one [unsubscribed] acknowledgement. *)
Theorem unsubscription_leaves_the_room
    (now : Z) (s : Socket) (d : RoomRequest) (st : State) :
  truthy (room d) = true →
  ∃ st',
    handleRoomUnsubscription now s (Some d) st = Returned tt st'
    ∧ (id s ∉ members st' (room_name d))
    ∧ (userId s ∉ tracked st' (room_name d))
    ∧ (∀ sid, sid ≠ id s →
         (sid ∈ members st' (room_name d) ↔ sid ∈ members st (room_name d)))
    ∧ (∀ uid, uid ≠ userId s →
         (uid ∈ tracked st' (room_name d) ↔ uid ∈ tracked st (room_name d)))
    ∧ (∀ r, r ≠ room_name d →
         members st' r = members st r ∧ tracked st' r = tracked st r)
    ∧ connectedUsers st' = connectedUsers st
    ∧ sockets st' = sockets st
    ∧ queue st' (id s) = queue st (id s) ++ [unsubscribed_event now d]
    ∧ (∀ sid, sid ≠ id s → queue st' sid = queue st sid).
Proof.
  intros Hroom.
  destruct (unsubscription_observed now s d st Hroom)
    as (st' & Hrun & Hmem & Htr & Hq & Hreg & Hsock & _).
  exists st'. split; [exact Hrun|].
  split; [rewrite Hmem, decide_True by done; set_solver|].
  split; [rewrite Htr, decide_True by done; set_solver|].
  split; [intros sid Hne; rewrite Hmem, decide_True by done; set_solver|].
  split; [intros uid Hne; rewrite Htr, decide_True by done; set_solver|].
  split; [intros r Hne; by rewrite Hmem, Htr, !decide_False by done|].
  split; [exact Hreg|]. split; [exact Hsock|]. split.
  - rewrite Hq. unfold delivered. rewrite decide_True by set_solver. done.
  - intros sid Hne. rewrite Hq. unfold delivered.
    rewrite decide_False by set_solver. apply app_nil_r.
Qed.

Lemma unsubscription_leaves_the_room_witness :
  let st := final (run_all
    [ Initialize; Connection 1 2 dee;
      Message no_store 3 dee (Subscribe (Some lot_updates)) ] init) in
  truthy (room lot_updates) = true ∧
  ∃ st',
    handleRoomUnsubscription 4 dee (Some lot_updates) st = Returned tt st'
    ∧ (id dee ∉ members st' (room_name lot_updates))
    ∧ (userId dee ∉ tracked st' (room_name lot_updates))
    ∧ queue st' (id dee) = queue st (id dee) ++ [unsubscribed_event 4 lot_updates].
Proof.
  intros st.
  assert (truthy (room lot_updates) = true) as H by reflexivity.
  split; [exact H|].
  destruct (unsubscription_leaves_the_room 4 dee lot_updates st H)
    as (st' & H1 & H2 & H3 & _ & _ & _ & _ & _ & H4 & _).
  exists st'. repeat split; assumption.
Defined.

Lemma subscription_observed now s d st :
  accepts s d = true →
  ∃ st',
    handleRoomSubscription now s (Some d) st = Returned tt st'
    ∧ (∀ r, members st' r
            = if decide (r = room_name d) then {[id s]} ∪ members st r
              else members st r)
    ∧ (∀ r, tracked st' r
            = if decide (r = room_name d) then {[userId s]} ∪ tracked st r
              else tracked st r)
    ∧ (∀ sid, queue st' sid
              = queue st sid ++ delivered {[id s]} sid (subscribed_event now d))
    ∧ connectedUsers st' = connectedUsers st
    ∧ sockets st' = sockets st
    ∧ io st' = io st.
Proof.
  intros Hacc. eexists.
  split; [apply (handleRoomSubscription_accepted _ _ _ _ Hacc)|].
  split; [|split; [|split; [|done]]].
  - intros r. unfold members; simpl. rewrite lookup_insert.
    destruct (decide (room_name d = r)) as [->|Hne].
    + by rewrite decide_True.
    + by rewrite decide_False by congruence.
  - intros r. unfold tracked; simpl. rewrite lookup_insert.
    destruct (decide (room_name d = r)) as [->|Hne].
    + by rewrite decide_True.
    + by rewrite decide_False by congruence.
  - intros sid. apply (queue_after_push st).
Qed.

(** X2: subscribing to a room and then unsubscribing from it brings the
    membership of every room and the tracked subscribers of every room back
    to what they were, provided the connection was not in the room and the
    user not tracked under it before; the requester's queue has gained the
    two acknowledgements, in that order. *)
Theorem subscribe_then_unsubscribe_restores
    (now1 now2 : Z) (s : Socket) (d : RoomRequest) (st : State) :
  accepts s d = true →
  id s ∉ members st (room_name d) →
  userId s ∉ tracked st (room_name d) →
  ∃ st1 st2,
    handleRoomSubscription now1 s (Some d) st = Returned tt st1
    ∧ handleRoomUnsubscription now2 s (Some d) st1 = Returned tt st2
    ∧ (∀ r, members st2 r = members st r)
    ∧ (∀ r, tracked st2 r = tracked st r)
    ∧ connectedUsers st2 = connectedUsers st
    ∧ queue st2 (id s)
      = queue st (id s) ++ [subscribed_event now1 d; unsubscribed_event now2 d].
Proof.
  intros Hacc Hmem Htr.
  assert (truthy (room d) = true) as Hroom.
  { unfold accepts in Hacc. by destruct (truthy (room d)). }
  destruct (subscription_observed now1 s d st Hacc)
    as (st1 & Hrun1 & Hm1 & Ht1 & Hq1 & Hreg1 & _).
  destruct (unsubscription_observed now2 s d st1 Hroom)
    as (st2 & Hrun2 & Hm2 & Ht2 & Hq2 & Hreg2 & _).
  exists st1, st2. split; [exact Hrun1|]. split; [exact Hrun2|].
  split; [|split; [|split]].
  - intros r. rewrite Hm2, Hm1.
    destruct (decide (r = room_name d)) as [->|]; [|done].
    apply leibniz_equiv. intros x.
    rewrite elem_of_difference, elem_of_union, elem_of_singleton.
    split; [naive_solver|]. intros Hx. split; [by right|]. by intros ->.
  - intros r. rewrite Ht2, Ht1.
    destruct (decide (r = room_name d)) as [->|]; [|done].
    apply leibniz_equiv. intros x.
    rewrite elem_of_difference, elem_of_union, elem_of_singleton.
    split; [naive_solver|]. intros Hx. split; [by right|]. by intros ->.
  - congruence.
  - rewrite Hq2, Hq1. unfold delivered.
    rewrite !decide_True by (by apply elem_of_singleton_2).
    by rewrite <- app_assoc.
Qed.

Lemma subscribe_then_unsubscribe_restores_witness :
  let st := final (run_all [Initialize; Connection 1 2 dee] init) in
  accepts dee lot_updates = true
  ∧ (id dee ∉ members st (room_name lot_updates))
  ∧ (userId dee ∉ tracked st (room_name lot_updates))
  ∧ ∃ st1 st2,
      handleRoomSubscription 3 dee (Some lot_updates) st = Returned tt st1
      ∧ handleRoomUnsubscription 4 dee (Some lot_updates) st1 = Returned tt st2
      ∧ (∀ r, members st2 r = members st r)
      ∧ (∀ r, tracked st2 r = tracked st r)
      ∧ connectedUsers st2 = connectedUsers st
      ∧ queue st2 (id dee)
        = queue st (id dee)
          ++ [subscribed_event 3 lot_updates; unsubscribed_event 4 lot_updates].
Proof.
  intros st.
  assert (accepts dee lot_updates = true) as H1 by reflexivity.
  assert (id dee ∉ members st (room_name lot_updates)) as H2
    by (apply (bool_decide_unpack _); vm_compute; exact I).
  assert (userId dee ∉ tracked st (room_name lot_updates)) as H3
    by (apply (bool_decide_unpack _); vm_compute; exact I).
  split; [exact H1|]. split; [exact H2|]. split; [exact H3|].
  exact (subscribe_then_unsubscribe_restores 3 4 dee lot_updates st H1 H2 H3).
Defined.

(** X3: the tracking map is kept by user, the rooms by connection.  When a
    user has two connections in a room and one of them unsubscribes, the
    other stays in the room and keeps receiving its events, but the user is
    no longer among the room's tracked subscribers. *)
Theorem unsubscribe_on_one_device_untracks_the_user
    (now : Z) (s1 s2 : Socket) (d : RoomRequest) (st : State) :
  truthy (room d) = true →
  userId s1 = userId s2 → id s1 ≠ id s2 →
  id s2 ∈ members st (room_name d) →
  ∃ st',
    handleRoomUnsubscription now s1 (Some d) st = Returned tt st'
    ∧ id s2 ∈ members st' (room_name d)
    ∧ (userId s2 ∉ tracked st' (room_name d)).
Proof.
  intros Hroom Huid Hid Hin.
  destruct (unsubscription_observed now s1 d st Hroom)
    as (st' & Hrun & Hmem & Htr & _).
  exists st'. split; [exact Hrun|]. split.
  - rewrite Hmem, decide_True by done.
    apply elem_of_difference. split; [exact Hin|].
    rewrite elem_of_singleton. congruence.
  - rewrite Htr, decide_True by done. rewrite <- Huid.
    rewrite elem_of_difference, elem_of_singleton. naive_solver.
Qed.

Lemma unsubscribe_on_one_device_untracks_the_user_witness :
  let st := final (run_all
    [ Initialize; Connection 1 2 dee; Connection 3 4 dee_phone;
      Message no_store 5 dee (Subscribe (Some lot_updates));
      Message no_store 6 dee_phone (Subscribe (Some lot_updates)) ] init) in
  truthy (room lot_updates) = true
  ∧ userId dee = userId dee_phone ∧ id dee ≠ id dee_phone
  ∧ id dee_phone ∈ members st (room_name lot_updates)
  ∧ ∃ st',
      handleRoomUnsubscription 7 dee (Some lot_updates) st = Returned tt st'
      ∧ id dee_phone ∈ members st' (room_name lot_updates)
      ∧ (userId dee_phone ∉ tracked st' (room_name lot_updates)).
Proof.
  intros st.
  assert (truthy (room lot_updates) = true) as H1 by reflexivity.
  assert (userId dee = userId dee_phone) as H2 by reflexivity.
  assert (id dee ≠ id dee_phone) as H3 by (simpl; discriminate).
  assert (id dee_phone ∈ members st (room_name lot_updates)) as H4
    by (apply (bool_decide_unpack _); vm_compute; exact I).
  split; [exact H1|]. split; [exact H2|]. split; [exact H3|].
  split; [exact H4|].
  exact (unsubscribe_on_one_device_untracks_the_user 7 dee dee_phone
           lot_updates st H1 H2 H3 H4).
Defined.

(** X4: nothing sets the rooms joined at connection apart.  A connection
    may unsubscribe from its own user room; from then on a notification
    broadcast for its user is not pushed to it. *)
Theorem own_user_room_can_be_left
    (now t : Z) (s : Socket) (notification : JsObject) (st : State) :
  io st = true →
  ∃ st1 st2,
    handleRoomUnsubscription now s
      (Some {| room := Some (user_room (userId s)); type := None |}) st
    = Returned tt st1
    ∧ broadcastNotification t (userId s) notification st1 = Returned tt st2
    ∧ queue st2 (id s) = queue st1 (id s).
Proof.
  intros Hio.
  set (d := {| room := Some (user_room (userId s)); type := None |}).
  destruct (unsubscription_observed now s d st (user_room_truthy (userId s)))
    as (st1 & Hrun & Hmem & _ & _ & _ & _ & Hio1).
  exists st1. eexists. split; [exact Hrun|].
  assert (io st1 = true) as Hio' by congruence.
  split; [apply (broadcastNotification_spec _ _ _ _ Hio')|].
  rewrite queue_after_push. unfold delivered.
  rewrite decide_False; [apply app_nil_r|].
  change (user_room (userId s)) with (room_name d).
  rewrite Hmem, decide_True by done.
  rewrite elem_of_difference, elem_of_singleton. naive_solver.
Qed.

Lemma own_user_room_can_be_left_witness :
  let st := final (run_all [Initialize; Connection 1 2 dee] init) in
  io st = true
  ∧ id dee ∈ members st (user_room (userId dee))
  ∧ ∃ st1 st2,
      handleRoomUnsubscription 3 dee
        (Some {| room := Some (user_room (userId dee)); type := None |}) st
      = Returned tt st1
      ∧ broadcastNotification 4 (userId dee) {[ "title" := JStr "Receipt" ]} st1
        = Returned tt st2
      ∧ queue st2 (id dee) = queue st1 (id dee).
Proof.
  intros st.
  assert (io st = true) as H by reflexivity.
  split; [exact H|].
  split; [apply (bool_decide_unpack _); vm_compute; exact I|].
  exact (own_user_room_can_be_left 3 4 dee {[ "title" := JStr "Receipt" ]} st H).
Defined.

(** ** Answers to requests *)

Lemma push_delivered targets ev (ob : gmap string (list Event)) sid :
  default [] (push targets ev ob !! sid)
  = default [] (ob !! sid) ++ delivered targets sid ev.
Proof.
  rewrite push_lookup. unfold delivered.
  destruct (decide (sid ∈ targets)); [reflexivity|by rewrite app_nil_r].
Qed.

Lemma delivered_to_self sid ev : delivered {[sid]} sid ev = [ev].
Proof. unfold delivered. by rewrite decide_True by (by apply elem_of_singleton_2). Qed.

Lemma delivered_to_other sid sid' ev : sid' ≠ sid → delivered {[sid]} sid' ev = [].
Proof.
  intros Hne. unfold delivered. rewrite decide_False; [done|].
  by rewrite elem_of_singleton.
Qed.

Lemma delivered_outside targets sid ev : sid ∉ targets → delivered targets sid ev = [].
Proof. intros H. unfold delivered. by rewrite decide_False. Qed.

(** A request for data that is not dropped is answered by one event to the
    requester, whatever the store does. *)
Lemma data_request_answered db now s msg st :
  is_data_request msg = true → is_dropped s msg = false →
  ∃ ev,
    on_message db now s msg st
    = Returned tt (set_outbox st (push {[id s]} ev (outbox st))).
Proof.
  destruct msg as [| |data|data|]; intros Hmsg Hdrop; try discriminate; simpl;
    unfold handleParkingAvailabilityRequest, handleBookingStatusRequest,
      handleLiveStatsRequest, getLiveStatistics, socket_emit;
    step_handler.
  - destruct data as [d|]; simpl; [|eexists; reflexivity].
    destruct (parking_lots db _); eexists; reflexivity.
  - destruct data as [d|]; simpl; [|eexists; reflexivity].
    destruct (bookings db _ _) as [[b|]| |]; eexists; reflexivity.
  - simpl in Hdrop. apply negb_false_iff in Hdrop. rewrite Hdrop.
    eexists; reflexivity.
Qed.

(** X5: a request is answered to the connection that sent it and to no
    other.  A subscribe or unsubscribe request that comes without its
    payload object raises a TypeError and leaves the state as it was; a
    request for live statistics from a connection that is no admin gets no
    answer; every other request, the requests for data without a payload
    included, returns and pushes exactly one event to the requester. *)
Theorem request_is_answered_to_the_requester
    (db : Db) (now : Z) (s : Socket) (msg : Inbound) (st : State) :
  (∀ sid, sid ≠ id s →
     queue (final (on_message db now s msg st)) sid = queue st sid)
  ∧ (if lacks_payload msg then
       on_message db now s msg st = Thrown "TypeError" st
     else
       ∃ st' evs,
         on_message db now s msg st = Returned tt st'
         ∧ queue st' (id s) = queue st (id s) ++ evs
         ∧ length evs = if is_dropped s msg then 0%nat else 1%nat).
Proof.
  assert (∀ ev,
    on_message db now s msg st
    = Returned tt (set_outbox st (push {[id s]} ev (outbox st))) →
    (∀ sid, sid ≠ id s →
       queue (final (on_message db now s msg st)) sid = queue st sid)
    ∧ ∃ st' evs,
        on_message db now s msg st = Returned tt st'
        ∧ queue st' (id s) = queue st (id s) ++ evs
        ∧ length evs = 1%nat) as Hone.
  { intros ev ->. split.
    - intros sid Hne. simpl. rewrite queue_after_push.
      rewrite delivered_to_other by done. apply app_nil_r.
    - eexists _, [ev]. split; [reflexivity|]. split; [|reflexivity].
      by rewrite queue_after_push, delivered_to_self. }
  destruct msg as [[d|]|[d|]|data|data|]; simpl lacks_payload; cbv iota;
    try (split; [intros sid Hne|]; reflexivity).
  - destruct (accepts s d) eqn:Hacc.
    + destruct (subscription_observed now s d st Hacc)
        as (st' & Hrun & _ & _ & Hq & _).
      simpl. rewrite Hrun. split.
      * intros sid Hne. simpl. rewrite Hq, delivered_to_other by done.
        apply app_nil_r.
      * exists st', [subscribed_event now d]. split; [reflexivity|].
        split; [|reflexivity]. by rewrite Hq, delivered_to_self.
    + destruct (handleRoomSubscription_refused now s d st Hacc) as [m Hm].
      apply (Hone (error_event m)). exact Hm.
  - destruct (truthy (room d)) eqn:Hroom.
    + destruct (unsubscription_observed now s d st Hroom)
        as (st' & Hrun & _ & _ & Hq & _).
      simpl. rewrite Hrun. split.
      * intros sid Hne. simpl. rewrite Hq, delivered_to_other by done.
        apply app_nil_r.
      * exists st', [unsubscribed_event now d]. split; [reflexivity|].
        split; [|reflexivity]. by rewrite Hq, delivered_to_self.
    + apply (Hone (error_event "Room is required for unsubscription")).
      simpl. apply (handleRoomUnsubscription_refused _ _ _ _ Hroom).
  - destruct (data_request_answered db now s (GetParkingAvailability data) st)
      as [ev Hev]; [done..|]. by apply (Hone ev).
  - destruct (data_request_answered db now s (GetBookingStatus data) st)
      as [ev Hev]; [done..|]. by apply (Hone ev).
  - destruct (bool_decide (userRole s = "admin")) eqn:Hrole.
    + destruct (data_request_answered db now s GetLiveStats st)
        as [ev Hev]; [done|by simpl; rewrite Hrole|].
      simpl is_dropped. rewrite Hrole. simpl negb. cbv iota.
      by apply (Hone ev).
    + simpl. rewrite Hrole. simpl. split; [done|].
      exists st, []. split; [done|]. split; [by rewrite app_nil_r|done].
Qed.

(** ** Who receives a broadcast *)

Lemma broadcastParkingUpdate_spec t1 t2 lot u st :
  io st = true →
  broadcastParkingUpdate t1 t2 lot u st
  = Returned tt
      (set_outbox st
         (push (members st "parking_updates") (parking_event t2 lot u)
            (push (members st (parking_lot_room lot)) (parking_event t1 lot u)
               (outbox st)))).
Proof.
  intros Hio. unfold broadcastParkingUpdate, io_to_emit. step_handler.
  rewrite Hio. reflexivity.
Qed.

Lemma broadcastBookingUpdate_spec t1 t2 uid b u st :
  io st = true →
  broadcastBookingUpdate t1 t2 uid b u st
  = Returned tt
      (set_outbox st
         (push (members st "admin") (booking_event_for_admins t2 uid b u)
            (push (members st (user_room uid)) (booking_event t1 b u)
               (outbox st)))).
Proof.
  intros Hio. unfold broadcastBookingUpdate, io_to_emit. step_handler.
  rewrite Hio. reflexivity.
Qed.

Lemma broadcastPaymentUpdate_spec t uid p u st :
  io st = true →
  broadcastPaymentUpdate t uid p u st
  = Returned tt
      (set_outbox st
         (push (members st (user_room uid)) (payment_event t p u) (outbox st))).
Proof.
  intros Hio. unfold broadcastPaymentUpdate, io_to_emit. step_handler.
  rewrite Hio. reflexivity.
Qed.

Lemma broadcastSystemAnnouncement_spec t m ty st :
  io st = true →
  broadcastSystemAnnouncement t m ty st
  = Returned tt
      (set_outbox st
         (push (sockets st) (announcement_event t m (default "info" ty))
               (outbox st))).
Proof.
  intros Hio. unfold broadcastSystemAnnouncement, io_emit. step_handler.
  rewrite Hio. reflexivity.
Qed.

(** X6: with the server started, an availability update is pushed to the
    connections in the lot's room and then to those in the room
    [parking_updates]; a connection in both receives it twice, one in
    neither not at all. *)
Theorem parking_update_goes_to_lot_room_and_general_room
    (t1 t2 : Z) (lot : string) (u : JsObject) (st : State) :
  io st = true →
  ∃ st',
    broadcastParkingUpdate t1 t2 lot u st = Returned tt st'
    ∧ ∀ sid,
        queue st' sid
        = queue st sid
          ++ delivered (members st (parking_lot_room lot)) sid
               (parking_event t1 lot u)
          ++ delivered (members st "parking_updates") sid
               (parking_event t2 lot u).
Proof.
  intros Hio. eexists.
  split; [apply (broadcastParkingUpdate_spec _ _ _ _ _ Hio)|].
  intros sid. unfold queue; simpl.
  by rewrite !push_delivered, <- app_assoc.
Qed.

Lemma parking_update_goes_to_lot_room_and_general_room_witness :
  let st := final (run_all
    [ Initialize; Connection 1 2 dee;
      Message no_store 3 dee (Subscribe (Some lot_updates));
      Message no_store 4 dee
        (Subscribe (Some {| room := Some "parking_lot:42";
                            type := Some "parking" |})) ] init) in
  let u : JsObject := {[ "available_spaces" := JNum 17 ]} in
  io st = true ∧
  ∃ st',
    broadcastParkingUpdate 5 6 "42" u st = Returned tt st'
    ∧ queue st' (id dee)
      = queue st (id dee) ++ [parking_event 5 "42" u; parking_event 6 "42" u].
Proof.
  intros st u.
  assert (io st = true) as H by reflexivity.
  split; [exact H|].
  destruct (parking_update_goes_to_lot_room_and_general_room 5 6 "42" u st H)
    as (st' & Hrun & Hq).
  exists st'. split; [exact Hrun|]. rewrite Hq. unfold delivered.
  rewrite !decide_True by (apply (bool_decide_unpack _); vm_compute; exact I).
  reflexivity.
Defined.

(** X7: with the server started, a booking update is pushed to the
    connections in the owner's room, and then a copy that names the owner
    to the connections in the admin room; an admin who owns the booking
    receives both, in that order. *)
Theorem booking_update_goes_to_owner_and_admins
    (t1 t2 : Z) (uid bookingId : string) (u : JsObject) (st : State) :
  io st = true →
  ∃ st',
    broadcastBookingUpdate t1 t2 uid bookingId u st = Returned tt st'
    ∧ ∀ sid,
        queue st' sid
        = queue st sid
          ++ delivered (members st (user_room uid)) sid
               (booking_event t1 bookingId u)
          ++ delivered (members st "admin") sid
               (booking_event_for_admins t2 uid bookingId u).
Proof.
  intros Hio. eexists.
  split; [apply (broadcastBookingUpdate_spec _ _ _ _ _ _ Hio)|].
  intros sid. unfold queue; simpl.
  by rewrite !push_delivered, <- app_assoc.
Qed.

Lemma booking_update_goes_to_owner_and_admins_witness :
  let st := final (run_all [Initialize; Connection 1 2 ada] init) in
  let u : JsObject := {[ "status" := JStr "created" ]} in
  io st = true ∧
  ∃ st',
    broadcastBookingUpdate 5 6 "u-9" "b-7" u st = Returned tt st'
    ∧ queue st' (id ada)
      = queue st (id ada)
        ++ [booking_event 5 "b-7" u; booking_event_for_admins 6 "u-9" "b-7" u].
Proof.
  intros st u.
  assert (io st = true) as H by reflexivity.
  split; [exact H|].
  destruct (booking_update_goes_to_owner_and_admins 5 6 "u-9" "b-7" u st H)
    as (st' & Hrun & Hq).
  exists st'. split; [exact Hrun|]. rewrite Hq. unfold delivered.
  rewrite !decide_True by (apply (bool_decide_unpack _); vm_compute; exact I).
  reflexivity.
Defined.

(** X8: with the server started, a payment update is pushed to the
    connections in the owner's room and to nobody else, the admin room
    included. *)
Theorem payment_update_goes_to_owner_only
    (t : Z) (uid paymentId : string) (u : JsObject) (st : State) :
  io st = true →
  ∃ st',
    broadcastPaymentUpdate t uid paymentId u st = Returned tt st'
    ∧ (∀ sid, sid ∈ members st (user_room uid) →
         queue st' sid = queue st sid ++ [payment_event t paymentId u])
    ∧ (∀ sid, sid ∉ members st (user_room uid) → queue st' sid = queue st sid).
Proof.
  intros Hio. eexists.
  split; [apply (broadcastPaymentUpdate_spec _ _ _ _ _ Hio)|].
  split; intros sid Hsid; rewrite queue_after_push; unfold delivered.
  - by rewrite decide_True.
  - rewrite decide_False by done. apply app_nil_r.
Qed.

Lemma payment_update_goes_to_owner_only_witness :
  let st := final (run_all
    [Initialize; Connection 1 2 ada; Connection 3 4 dee] init) in
  let u : JsObject := {[ "status" := JStr "succeeded" ]} in
  io st = true ∧
  ∃ st',
    broadcastPaymentUpdate 5 "u-1" "p-3" u st = Returned tt st'
    ∧ queue st' (id dee) = queue st (id dee) ++ [payment_event 5 "p-3" u]
    ∧ queue st' (id ada) = queue st (id ada).
Proof.
  intros st u.
  assert (io st = true) as H by reflexivity.
  split; [exact H|].
  destruct (payment_update_goes_to_owner_only 5 "u-1" "p-3" u st H)
    as (st' & Hrun & Hin & Hout).
  exists st'. split; [exact Hrun|]. split.
  - apply Hin. apply (bool_decide_unpack _); vm_compute; exact I.
  - apply Hout. apply (bool_decide_unpack _); vm_compute; exact I.
Defined.

(** X9: with the server started, a system announcement is pushed once to
    every connected socket, whatever rooms it is in, and to no other; an
    announcement sent without a type has type [info]. *)
Theorem announcement_goes_to_every_connection
    (t : Z) (message : string) (ty : option string) (st : State) :
  io st = true →
  ∃ st',
    broadcastSystemAnnouncement t message ty st = Returned tt st'
    ∧ (∀ sid, sid ∈ sockets st →
         queue st' sid
         = queue st sid ++ [announcement_event t message (default "info" ty)])
    ∧ (∀ sid, sid ∉ sockets st → queue st' sid = queue st sid).
Proof.
  intros Hio. eexists.
  split; [apply (broadcastSystemAnnouncement_spec _ _ _ _ Hio)|].
  split; intros sid Hsid; rewrite queue_after_push; unfold delivered.
  - by rewrite decide_True.
  - rewrite decide_False by done. apply app_nil_r.
Qed.

Lemma announcement_goes_to_every_connection_witness :
  let st := final (run_all
    [Initialize; Connection 1 2 ada; Connection 3 4 dee; Disconnect ada] init) in
  io st = true ∧
  ∃ st',
    broadcastSystemAnnouncement 5 "Maintenance at noon" None st = Returned tt st'
    ∧ queue st' (id dee)
      = queue st (id dee) ++ [announcement_event 5 "Maintenance at noon" "info"]
    ∧ queue st' (id ada) = queue st (id ada).
Proof.
  intros st.
  assert (io st = true) as H by reflexivity.
  split; [exact H|].
  destruct (announcement_goes_to_every_connection 5 "Maintenance at noon" None st H)
    as (st' & Hrun & Hin & Hout).
  exists st'. split; [exact Hrun|]. split.
  - apply Hin. apply (bool_decide_unpack _); vm_compute; exact I.
  - apply Hout. apply (bool_decide_unpack _); vm_compute; exact I.
Defined.

(** ** What the payload of an update holds *)

Lemma stamped_spread_lookup now (base over : JsObject) k :
  stamped now (spread base over) !! k
  = if decide (k = "timestamp") then Some (JIsoDate now)
    else match over !! k with Some v => Some v | None => base !! k end.
Proof.
  unfold stamped, spread. rewrite lookup_insert.
  destruct (decide ("timestamp" = k)) as [<-|Hne].
  - by rewrite decide_True.
  - rewrite decide_False by congruence. rewrite lookup_union.
    destruct (over !! k), (base !! k); reflexivity.
Qed.

(** X10: in the events built by the three domain broadcasts the fields of
    the caller's update data come after the identifiers and before the
    timestamp.  The timestamp is always the one read by the service, even
    when the update data carries a [timestamp] of its own; every other field
    of the update data is passed on as it is, so that update data with its
    own [booking_id], [user_id], [payment_id] or [parking_lot_id] replaces
    the identifier given to the broadcast, which is present otherwise. *)
Theorem update_data_overrides_ids_but_not_timestamp
    (now : Z) (uid ident : string) (u : JsObject) :
  let events :=
    [ (parking_event now ident u, "parking_lot_id");
      (booking_event now ident u, "booking_id");
      (booking_event_for_admins now uid ident u, "booking_id");
      (payment_event now ident u, "payment_id") ] in
  Forall (λ '(ev, id_field),
      payload ev !! "timestamp" = Some (JIsoDate now)
      ∧ (∀ k v, k ≠ "timestamp" → u !! k = Some v → payload ev !! k = Some v)
      ∧ (u !! id_field = None → payload ev !! id_field = Some (JStr ident)))
    events
  ∧ (u !! "user_id" = None →
     payload (booking_event_for_admins now uid ident u) !! "user_id"
     = Some (JStr uid))
  ∧ (u !! "user_id" = None →
     payload (booking_event now ident u) !! "user_id" = None).
Proof.
  intros events. split; [|split].
  - assert (∀ ev id_field base,
      ev = stamped now (spread base u) →
      base !! id_field = Some (JStr ident) → id_field ≠ "timestamp" →
      ev !! "timestamp" = Some (JIsoDate now)
      ∧ (∀ k v, k ≠ "timestamp" → u !! k = Some v → ev !! k = Some v)
      ∧ (u !! id_field = None → ev !! id_field = Some (JStr ident))) as Hev.
    { intros ev id_field base -> Hbase Hid. split; [|split].
      - by rewrite stamped_spread_lookup.
      - intros k v Hk Hu. rewrite stamped_spread_lookup.
        rewrite decide_False by done. by rewrite Hu.
      - intros Hu. rewrite stamped_spread_lookup.
        rewrite decide_False by done. by rewrite Hu. }
    unfold events.
    apply Forall_cons_2; [|apply Forall_cons_2; [|apply Forall_cons_2;
      [|apply Forall_cons_2; [|apply Forall_nil_2]]]];
      simpl; eapply Hev; first [reflexivity | discriminate].
  - intros Hu. simpl. rewrite stamped_spread_lookup. simpl. rewrite Hu.
    reflexivity.
  - intros Hu. simpl. rewrite stamped_spread_lookup. simpl. rewrite Hu.
    reflexivity.
Qed.

(** ** What broadcasts and requests for data leave alone *)

Lemma broadcast_only_pushes a st :
  is_broadcast a = true → ∃ ob, run a st = Returned tt (set_outbox st ob).
Proof.
  destruct st as [i c r k m o].
  destruct a; intros Ha; try discriminate; simpl;
    unfold broadcastParkingUpdate, broadcastBookingUpdate,
      broadcastPaymentUpdate, broadcastNotification,
      broadcastSystemAnnouncement, io_to_emit, io_emit;
    step_handler; destruct i; simpl; eexists; reflexivity.
Qed.

(** X11: pushing events is all that the five broadcasts and the three
    requests for data do.  They return without raising, and the server
    handle, the registry, the tracked subscriptions, the connected sockets and
    the rooms are afterwards what they were before. *)
Theorem fan_out_changes_nothing_but_queues (a : Action) (st : State) :
  is_broadcast a = true
  ∨ (∃ db now s msg, a = Message db now s msg ∧ is_data_request msg = true) →
  returns (run a st) = true ∧ view (final (run a st)) = view st.
Proof.
  intros [Ha|(db & now & s & msg & -> & Hmsg)].
  - destruct (broadcast_only_pushes a st Ha) as [ob ->]. split; reflexivity.
  - destruct (data_request_only_pushes db now s msg st) as [ob Hob].
    { by destruct msg. }
    simpl. rewrite Hob. split; reflexivity.
Qed.

Lemma fan_out_changes_nothing_but_queues_witness :
  let st := final (run_all
    [ Initialize; Connection 1 2 dee;
      Message no_store 3 dee (Subscribe (Some lot_updates)) ] init) in
  let a := ParkingUpdate 4 5 "42" {[ "available_spaces" := JNum 3 ]} in
  returns (run a st) = true ∧ view (final (run a st)) = view st.
Proof.
  intros st a.
  exact (fan_out_changes_nothing_but_queues a st (or_introl eq_refl)).
Defined.

(** ** Disconnecting *)

(** X12: when a connection disconnects, it is taken out of the connected
    sockets and out of every room, its user out of the registry and out of
    the tracked subscribers of every room; no event is pushed, and the room
    membership of every other connection is what it was. *)
Theorem disconnect_leaves_nothing_behind (s : Socket) (st : State) :
  ∃ st',
    disconnect s st = Returned tt st'
    ∧ (id s ∉ sockets st')
    ∧ (∀ r, id s ∉ members st' r)
    ∧ connectedUsers st' !! userId s = None
    ∧ (∀ r, userId s ∉ tracked st' r)
    ∧ (∀ sid r, sid ≠ id s → (sid ∈ members st' r ↔ sid ∈ members st r))
    ∧ (∀ sid, sid ≠ id s → (sid ∈ sockets st' ↔ sid ∈ sockets st))
    ∧ outbox st' = outbox st.
Proof.
  eexists. split; [apply disconnect_spec|].
  split; [|split; [|split; [|split; [|split; [|split]]]]]; simpl.
  - rewrite elem_of_difference, elem_of_singleton. naive_solver.
  - intros r. unfold members; simpl. rewrite omap_without_default.
    rewrite elem_of_difference, elem_of_singleton. naive_solver.
  - apply lookup_delete_eq.
  - intros r. unfold tracked; simpl. rewrite omap_without_default.
    rewrite elem_of_difference, elem_of_singleton. naive_solver.
  - intros sid r Hne. unfold members; simpl. rewrite omap_without_default.
    rewrite elem_of_difference, elem_of_singleton. naive_solver.
  - intros sid Hne. rewrite elem_of_difference, elem_of_singleton.
    naive_solver.
  - reflexivity.
Qed.

Lemma detached_gets_no_broadcast a s st :
  detached st s → is_broadcast a = true →
  queue (final (run a st)) (id s) = queue st (id s).
Proof.
  intros Hdet Ha.
  pose proof (λ r, detached_members st s r Hdet) as Hrooms.
  destruct Hdet as [Hsock _].
  destruct a; try discriminate; simpl;
    unfold broadcastParkingUpdate, broadcastBookingUpdate,
      broadcastPaymentUpdate, broadcastNotification,
      broadcastSystemAnnouncement, io_to_emit, io_emit;
    step_handler; destruct (io st); simpl; try reflexivity;
    unfold queue; simpl; rewrite ?push_delivered;
    rewrite ?delivered_outside by (first [apply Hrooms | exact Hsock]);
    by rewrite ?app_nil_r.
Qed.

(** X13: a connection that has disconnected receives nothing from any
    later broadcast: its queue after the broadcast is its queue from before
    it disconnected. *)
Theorem no_broadcast_after_disconnect (a : Action) (s : Socket) (st : State) :
  is_broadcast a = true →
  queue (final (run a (final (disconnect s st)))) (id s) = queue st (id s).
Proof.
  intros Ha.
  rewrite (detached_gets_no_broadcast a s _ (disconnected_is_detached s st) Ha).
  rewrite disconnect_spec. reflexivity.
Qed.

Lemma no_broadcast_after_disconnect_witness :
  let st := final (run_all
    [ Initialize; Connection 1 2 dee;
      Message no_store 3 dee (Subscribe (Some lot_updates)) ] init) in
  let a := SystemAnnouncement 9 "Maintenance at noon" None in
  is_broadcast a = true
  ∧ queue (final (run a (final (disconnect dee st)))) (id dee) = queue st (id dee).
Proof.
  intros st a.
  assert (is_broadcast a = true) as H by reflexivity.
  split; [exact H|].
  exact (no_broadcast_after_disconnect a dee st H).
Defined.

(** ** The handshake *)

(** X14: a handshake is refused for one of three reasons (no token, a
    token the verifier does not accept, no row for the token's id in the
    store) and then leaves the state exactly as it was: nothing is
    registered, joined or pushed.  A handshake that is accepted had a token,
    and the connection gets its user id from the token and its role, name
    and email from the store's row for that id, never from the token. *)
Theorem handshake_outcomes
    (jwt_verify : string → option string) (db : Db) (t_conn t_emit : Z)
    (sid : string) (token : option string) (st : State) :
  match authenticate jwt_verify db sid token with
  | AuthError m =>
      connect jwt_verify db t_conn t_emit sid token st = Returned (AuthError m) st
      ∧ m ∈ [ "Authentication error: No token provided";
              "Authentication error: Invalid token";
              "Authentication error: User not found" ]
  | AuthOk s =>
      truthy token = true
      ∧ id s = sid
      ∧ token ≫= jwt_verify = Some (userId s)
      ∧ users_down db = false
      ∧ ∃ row,
          users db !! userId s = Some row
          ∧ userRole s = row_role row
          ∧ userEmail s = row_email row
          ∧ userName s = row_name row
  end.
Proof.
  unfold connect.
  destruct (authenticate jwt_verify db sid token) as [s|m] eqn:Hauth;
    unfold authenticate in Hauth.
  - destruct (truthy token); simpl in Hauth; [|discriminate].
    destruct (token ≫= jwt_verify) as [uid|]; [|discriminate].
    destruct (users_down db); [discriminate|].
    destruct (users db !! uid) as [row|] eqn:Hrow; [|discriminate].
    injection Hauth as <-. simpl. repeat split. by exists row.
  - split; [reflexivity|].
    destruct (truthy token); simpl in Hauth;
      [|injection Hauth as <-; rewrite !elem_of_cons; auto].
    destruct (token ≫= jwt_verify) as [uid|];
      [|injection Hauth as <-; rewrite !elem_of_cons; auto].
    destruct (users_down db);
      [injection Hauth as <-; rewrite !elem_of_cons; auto|].
    destruct (users db !! uid) as [row|]; [discriminate|].
    injection Hauth as <-; rewrite !elem_of_cons; auto.
Qed.

(** ** The registry counts users *)

Lemma total_connected_is_size st :
  (getConnectedUsersInfo st).1 = size (connectedUsers st).
Proof.
  unfold getConnectedUsersInfo. simpl.
  by rewrite length_fmap, length_map_to_list.
Qed.

Lemma registered_spec st uid :
  registered st uid = true ↔ is_Some (connectedUsers st !! uid).
Proof. unfold registered. apply bool_decide_eq_true. Qed.

(** X15: [total_connected] counts users, not connections.  A connection of
    a user who already has an entry leaves the count as it is, a connection
    of another user raises it by one; a disconnect lowers it by one when the
    user has an entry, whichever of the user's connections goes away, and
    leaves it otherwise. *)
Theorem total_connected_counts_users
    (t_conn t_emit : Z) (s : Socket) (st : State) :
  (getConnectedUsersInfo (final (connection t_conn t_emit s st))).1
  = (if registered st (userId s) then (getConnectedUsersInfo st).1
     else S (getConnectedUsersInfo st).1)
  ∧ (getConnectedUsersInfo (final (disconnect s st))).1
    = (if registered st (userId s) then pred (getConnectedUsersInfo st).1
       else (getConnectedUsersInfo st).1).
Proof.
  rewrite !total_connected_is_size. unfold registered. split.
  - destruct (connection_spec t_conn t_emit s st)
      as (st' & -> & _ & Hreg & _). simpl final. rewrite Hreg.
    rewrite map_size_insert.
    destruct (connectedUsers st !! userId s) as [info|]; reflexivity.
  - rewrite disconnect_spec. simpl final. simpl connectedUsers at 1.
    rewrite map_size_delete.
    destruct (connectedUsers st !! userId s) as [info|]; reflexivity.
Qed.

(** ** The callers over HTTP *)

Lemma is_connected_is_registered st uid :
  existsb (λ user, bool_decide (UserInfo.user_id user = uid)) (connected_users st)
  = registered st uid.
Proof.
  apply Bool.eq_iff_eq_true. rewrite registered_spec, existsb_exists.
  unfold connected_users. split.
  - intros (u & Hin & Hu). apply bool_decide_eq_true in Hu.
    apply list_elem_of_In, list_elem_of_fmap in Hin as ([k info] & -> & Hin).
    apply elem_of_map_to_list in Hin. simpl in Hu. subst k. eauto.
  - intros [info Hinfo].
    exists (UserInfo.mk uid (connectedAt info) (role info)). split.
    + apply list_elem_of_In, list_elem_of_fmap. exists (uid, info).
      split; [reflexivity|]. by apply elem_of_map_to_list.
    + by apply bool_decide_eq_true.
Qed.

(** X16: the connection status of a user is read off the registry.  The
    answer reports [is_connected] exactly when the user has a registry
    entry, next to the number of entries; it is true right after a
    connection of the user, and false right after any connection of the user
    has disconnected. *)
Theorem connection_status_follows_registry
    (now t_conn t_emit : Z) (uid : string) (s : Socket) (st : State) :
  realtimeController.getConnectionStatus now uid st
  = Returned
      (res_json
         (stamped now
            {[ "is_connected" := JBool (registered st uid);
               "user_id" := JStr uid;
               "total_connected_users" :=
                 JNum (Z.of_nat (size (connectedUsers st))) ]}))
      st
  ∧ registered (final (connection t_conn t_emit s st)) (userId s) = true
  ∧ registered (final (disconnect s st)) (userId s) = false.
Proof.
  split; [|split].
  - unfold realtimeController.getConnectionStatus. step_handler.
    rewrite is_connected_is_registered.
    unfold connected_users. by rewrite length_fmap, length_map_to_list.
  - destruct (connection_spec t_conn t_emit s st)
      as (st' & -> & _ & Hreg & _). simpl.
    apply registered_spec. rewrite Hreg, lookup_insert_eq. eauto.
  - rewrite disconnect_spec. simpl. unfold registered; simpl.
    rewrite lookup_delete_eq. apply bool_decide_eq_false_2. by intros [? ?].
Qed.

Lemma invalid_announcement_is_refused now_ws now_res user_id body stored st :
  valid_announcement body = false →
  ∃ resp,
    realtimeController.sendSystemAnnouncement now_ws now_res user_id body stored st
    = Returned resp st
    ∧ status resp ≠ 200.
Proof.
  unfold realtimeController.sendSystemAnnouncement, valid_announcement.
  destruct body as [[m ty]|]; step_handler; [|by eexists].
  destruct (truthy m); simpl; [|by eexists].
  case_bool_decide; simpl; [discriminate|by eexists].
Qed.

(** X17: [sendSystemAnnouncement] never raises.  Without a body it answers
    500, without a message or with a type outside the five valid ones it
    answers 400, and in both cases nothing is broadcast.  Otherwise the
    announcement is broadcast, with type [info] when none is given, before
    the record is stored: when storing rejects, the answer is 500 although
    the announcement has gone out; when storing fails with an error or
    succeeds, the answer is 200. *)
Theorem announcement_goes_out_before_it_is_stored
    (now_ws now_res : Z) (user_id : string)
    (body : option realtimeController.AnnouncementBody)
    (stored : QueryResult JsVal) (st : State) :
  ∃ resp st',
    realtimeController.sendSystemAnnouncement now_ws now_res user_id body stored st
    = Returned resp st'
    ∧ match body with
      | None => status resp = 500 ∧ st' = st
      | Some b =>
          if valid_announcement body then
            broadcastSystemAnnouncement now_ws
              (default "" (realtimeController.message b))
              (Some (default "info" (realtimeController.type b))) st
            = Returned tt st'
            ∧ status resp = match stored with QReject => 500 | _ => 200 end
          else status resp = 400 ∧ st' = st
      end.
Proof.
  unfold realtimeController.sendSystemAnnouncement, valid_announcement.
  destruct body as [[m ty]|]; step_handler; [|by eexists _, _].
  destruct (truthy m); simpl; [|by eexists _, _].
  case_bool_decide; simpl; [|by eexists _, _].
  unfold broadcastSystemAnnouncement, io_emit. step_handler.
  destruct (io st); simpl; destruct stored; by eexists _, _.
Qed.

(** X18: the announcement route lets nothing out unless the store says
    that the caller is an admin and the body passes the checks of the
    handler: in every other case the state is left as it was and the answer
    is not 200. *)
Theorem announcement_needs_admin_and_valid_body
    (db : Db) (now_ws now_res : Z) (user_id : string)
    (body : option realtimeController.AnnouncementBody)
    (stored : QueryResult JsVal) (st : State) :
  admin_in_store db user_id && valid_announcement body = false →
  ∃ resp,
    announcement_route db now_ws now_res user_id body stored st
    = Returned resp st
    ∧ status resp ≠ 200.
Proof.
  unfold announcement_route, admin_route, requireAdmin, admin_in_store.
  intros Hno.
  destruct (select_user db user_id) as [row| |]; simpl in *;
    [|by eexists..].
  destruct (bool_decide (row_role row = "admin")); simpl in *;
    [|by eexists].
  apply invalid_announcement_is_refused. exact Hno.
Qed.

Lemma announcement_needs_admin_and_valid_body_witness :
  let body := Some (realtimeController.mkAnnouncementBody
                      (Some "Maintenance at noon") (Some "warning")) in
  let st := final (run_all [Initialize; Connection 1 2 dee] init) in
  admin_in_store sample_store "u-1" && valid_announcement body = false
  ∧ ∃ resp,
      announcement_route sample_store 3 4 "u-1" body (QData JNull) st
      = Returned resp st
      ∧ status resp ≠ 200.
Proof.
  intros body st.
  assert (admin_in_store sample_store "u-1" && valid_announcement body = false)
    as H by (vm_compute; reflexivity).
  split; [exact H|].
  exact (announcement_needs_admin_and_valid_body sample_store 3 4 "u-1" body
           (QData JNull) st H).
Defined.

(** X19: a manual availability update never raises, and it is broadcast
    only when the body carries a count, the lot is found, the count lies
    between 0 and the lot's total number of spaces, the update of the lot
    succeeds and the log entry is written; the broadcast then carries that
    count, and the answer is 200.  In every other case nothing is broadcast
    and the answer is not 200. *)
Theorem manual_update_is_broadcast_only_in_range
    (render : Z → string) (t1 t2 t3 : Z) (parking_lot_id user_id : string)
    (body : option realtimeController.AvailabilityBody)
    (fetched : QueryResult (option realtimeController.ParkingLot))
    (updated : QueryResult JsVal) (logged : bool) (st : State) :
  ∃ resp st',
    realtimeController.updateParkingLotAvailability render t1 t2 t3
      parking_lot_id user_id body fetched updated logged st
    = Returned resp st'
    ∧ match body, fetched, updated with
      | Some b, QData (Some parkingLot), QData _ =>
          match realtimeController.new_available_spaces b with
          | Some n =>
              if (0 <=? n) && (n <=? realtimeController.total_spaces parkingLot)
                 && logged
              then
                status resp = 200
                ∧ broadcastParkingUpdate t1 t2 parking_lot_id
                    (manual_update_data n (realtimeController.reason b) user_id)
                    st
                  = Returned tt st'
              else status resp ≠ 200 ∧ st' = st
          | None => status resp ≠ 200 ∧ st' = st
          end
      | _, _, _ => status resp ≠ 200 ∧ st' = st
      end.
Proof.
  unfold realtimeController.updateParkingLotAvailability, manual_update_data.
  destruct body as [[n reason]|]; step_handler; [|by eexists _, _].
  destruct n as [n|]; simpl;
    [|destruct fetched as [[pl|]| |], updated; by eexists _, _].
  destruct fetched as [[pl|]| |]; simpl;
    try (destruct updated; by eexists _, _).
  destruct (Z.ltb_spec n 0), (Z.gtb_spec n (realtimeController.total_spaces pl)),
    (Z.leb_spec 0 n), (Z.leb_spec n (realtimeController.total_spaces pl));
    try lia; simpl;
    try (destruct updated; by eexists _, _).
  destruct updated as [upd| |]; simpl; try by eexists _, _.
  destruct logged; simpl; [|by eexists _, _].
  unfold broadcastParkingUpdate, io_to_emit. step_handler.
  destruct (io st); simpl; by eexists _, _.
Qed.

(** X20: cancelling a booking never raises.  When the booking is found for
    the caller, is active and is marked cancelled in the store, the answer is
    the cancelled booking unless a later store call rejects; the two
    broadcasts, first the lot's availability raised by one and then the
    cancellation to the owner and the admins, go out only when the lot's row
    is found as well.  The result of the update of the lot is not looked at:
    when that update resolves with an error the lot's row is unchanged in
    the store, and still the availability raised by one is broadcast and the
    answer is the cancelled booking; only an update whose promise rejects
    ends in a 500 with nothing broadcast.  When the lot's row is not found
    the answer is still the cancelled booking, but nothing at all is
    broadcast, the cancellation to the owner included.  In every other case
    nothing is broadcast and the answer is not 200. *)
Theorem cancellation_is_broadcast_only_with_the_lot
    (t1 t2 t3 t4 : Z) (booking_id user_id : string)
    (existing : QueryResult (option bookingController.Booking))
    (cancelled : QueryResult JsObject)
    (lot : QueryResult (option Z)) (restored : QueryResult JsVal)
    (st : State) :
  ∃ resp st',
    bookingController.cancelBooking t1 t2 t3 t4 booking_id user_id
      existing cancelled lot restored st
    = Returned resp st'
    ∧ match existing, cancelled with
      | QData (Some existingBooking), QData cancelledBooking =>
          if bool_decide (bookingController.status existingBooking = "active")
          then
            match lot with
            | QData (Some available) =>
                match restored with
                | QData _ | QError =>
                    resp = res_json cancelledBooking
                    ∧ ∃ st1,
                        broadcastParkingUpdate t1 t2
                          (bookingController.parking_lot_id existingBooking)
                          (space_released available) st
                        = Returned tt st1
                        ∧ broadcastBookingUpdate t3 t4 user_id booking_id
                            (booking_cancelled cancelledBooking) st1
                          = Returned tt st'
                | QReject => status resp = 500 ∧ st' = st
                end
            | QData None | QError => resp = res_json cancelledBooking ∧ st' = st
            | QReject => status resp = 500 ∧ st' = st
            end
          else status resp = 400 ∧ st' = st
      | _, _ => status resp ≠ 200 ∧ st' = st
      end.
Proof.
  unfold bookingController.cancelBooking, bookingController.data_of,
    space_released, booking_cancelled.
  destruct existing as [[b|]| |]; step_handler;
    try (destruct cancelled; by eexists _, _).
  case_bool_decide; simpl;
    [|destruct cancelled; by eexists _, _].
  destruct cancelled as [c| |]; simpl; try by eexists _, _.
  destruct lot as [[a|]| |]; simpl; try by eexists _, _.
  destruct (broadcast_only_pushes
              (ParkingUpdate t1 t2 (bookingController.parking_lot_id b)
                 {[ "available_spaces" := JNum (a + 1);
                    "action" := JStr "booking_cancelled" ]}) st eq_refl)
    as [ob1 H1].
  destruct (broadcast_only_pushes
              (BookingUpdate t3 t4 user_id booking_id
                 {[ "status" := JStr "cancelled";
                    "action" := JStr "booking_cancelled";
                    "booking" := JObj (map_to_list c) ]})
              (set_outbox st ob1) eq_refl)
    as [ob2 H2].
  simpl in H1, H2.
  destruct restored as [v| |]; simpl; [| |by eexists _, _];
    rewrite H1, H2;
    (eexists _, _; split; [reflexivity|]; split; [reflexivity|];
     eexists; split; [reflexivity|exact H2]).
Qed.

(** X21: the live statistics are gated twice, and the two gates read the
    role in different places: the HTTP route asks the store at each request,
    the socket uses the role cached at connection.  For a connection whose
    user has since become admin in the store, the route answers 200 while the
    same request over the socket is dropped; for one whose user is no longer
    admin in the store, the route answers 403 while the socket still
    answers with the statistics. *)
Theorem live_statistics_gates_read_different_roles
    (db : Db) (now_http now_ws : Z) (s : Socket) (row : UserRow) (st : State) :
  users_down db = false → users db !! userId s = Some row →
  (row_role row = "admin" → userRole s ≠ "admin" →
     (∃ resp,
        live_stats_route db now_http (userId s) st = Returned resp st
        ∧ status resp = 200)
     ∧ on_message db now_ws s GetLiveStats st = Returned tt st)
  ∧ (row_role row ≠ "admin" → userRole s = "admin" →
     (∃ resp,
        live_stats_route db now_http (userId s) st = Returned resp st
        ∧ status resp = 403)
     ∧ ∃ ev,
         on_message db now_ws s GetLiveStats st
         = Returned tt (set_outbox st (push {[id s]} ev (outbox st)))
         ∧ name ev = "live_stats").
Proof.
  intros Hup Hrow.
  unfold live_stats_route, admin_route, requireAdmin, select_user.
  rewrite Hup, Hrow. split; intros Hstore Hcached.
  - rewrite (bool_decide_eq_true_2 _ Hstore). simpl. split.
    + unfold realtimeController.getLiveStatistics, getLiveStatistics.
      step_handler. by eexists.
    + rewrite (bool_decide_eq_false_2 _ Hcached). reflexivity.
  - rewrite (bool_decide_eq_false_2 _ Hstore). simpl. split.
    + by eexists.
    + by apply live_stats_request_answered_for_admin.
Qed.

Lemma live_statistics_gates_read_different_roles_witness :
  let st := final (run_all [Initialize; Connection 1 2 dee] init) in
  let row := mkUserRow "Dee" "d@example.org" "admin" in
  users_down promoted_store = false
  ∧ users promoted_store !! userId dee = Some row
  ∧ row_role row = "admin" ∧ userRole dee ≠ "admin"
  ∧ (∃ resp,
       live_stats_route promoted_store 3 (userId dee) st = Returned resp st
       ∧ status resp = 200)
  ∧ on_message promoted_store 4 dee GetLiveStats st = Returned tt st.
Proof.
  intros st row.
  assert (users_down promoted_store = false) as H1 by reflexivity.
  assert (users promoted_store !! userId dee = Some row) as H2
    by (vm_compute; reflexivity).
  assert (row_role row = "admin") as H3 by reflexivity.
  assert (userRole dee ≠ "admin") as H4 by (simpl; discriminate).
  split; [exact H1|]. split; [exact H2|]. split; [exact H3|].
  split; [exact H4|].
  exact (proj1 (live_statistics_gates_read_different_roles promoted_store
                  3 4 dee row st H1 H2) H3 H4).
Defined.

(** ** Subscriptions and broadcasts together *)

Lemma parking_lot_room_is_not_general lot : parking_lot_room lot ≠ "parking_updates".
Proof. unfold parking_lot_room. simpl. discriminate. Qed.

(** X22: a connection that subscribes to the room of a parking lot
    receives, after the acknowledgement, the next availability update of
    that lot, with the fields of the update data in it; it receives the
    update a second time exactly when it is in the room [parking_updates]
    as well. *)
Theorem subscriber_receives_the_lot_update
    (now t1 t2 : Z) (s : Socket) (lot ty : string) (u : JsObject) (st : State) :
  let d := {| room := Some (parking_lot_room lot); type := Some ty |} in
  io st = true → accepts s d = true →
  ∃ st1 st2,
    handleRoomSubscription now s (Some d) st = Returned tt st1
    ∧ broadcastParkingUpdate t1 t2 lot u st1 = Returned tt st2
    ∧ queue st2 (id s)
      = queue st (id s)
        ++ [subscribed_event now d; parking_event t1 lot u]
        ++ delivered (members st "parking_updates") (id s) (parking_event t2 lot u)
    ∧ (∀ k v, k ≠ "timestamp" → u !! k = Some v →
         payload (parking_event t1 lot u) !! k = Some v).
Proof.
  intros d Hio Hacc.
  destruct (subscription_observed now s d st Hacc)
    as (st1 & Hrun & Hmem & _ & Hq & _ & _ & Hio1).
  assert (io st1 = true) as Hio' by congruence.
  exists st1. eexists. split; [exact Hrun|].
  split; [apply (broadcastParkingUpdate_spec _ _ _ _ _ Hio')|]. split.
  - unfold queue at 1; simpl. rewrite !push_delivered. fold (queue st1 (id s)).
    rewrite Hq, delivered_to_self, !Hmem.
    change (room_name d) with (parking_lot_room lot).
    rewrite decide_True by done.
    rewrite decide_False by (intros E; symmetry in E;
                             by apply parking_lot_room_is_not_general in E).
    unfold delivered at 1.
    rewrite decide_True by (apply elem_of_union_l; by apply elem_of_singleton_2).
    by rewrite <- !app_assoc.
  - intros k v Hk Hu. simpl. rewrite stamped_spread_lookup.
    rewrite decide_False by done. by rewrite Hu.
Qed.

Lemma subscriber_receives_the_lot_update_witness :
  let st := final (run_all [Initialize; Connection 1 2 dee] init) in
  let d := {| room := Some (parking_lot_room "42"); type := Some "parking" |} in
  let u : JsObject := {[ "available_spaces" := JNum 17 ]} in
  io st = true ∧ accepts dee d = true ∧
  ∃ st1 st2,
    handleRoomSubscription 3 dee (Some d) st = Returned tt st1
    ∧ broadcastParkingUpdate 4 5 "42" u st1 = Returned tt st2
    ∧ queue st2 (id dee)
      = queue st (id dee) ++ [subscribed_event 3 d; parking_event 4 "42" u]
    ∧ payload (parking_event 4 "42" u) !! "available_spaces" = Some (JNum 17).
Proof.
  intros st d u.
  assert (io st = true) as H1 by reflexivity.
  assert (accepts dee d = true) as H2 by reflexivity.
  split; [exact H1|]. split; [exact H2|].
  destruct (subscriber_receives_the_lot_update 3 4 5 dee "42" "parking" u st H1 H2)
    as (st1 & st2 & Hs & Hb & Hq & Hp).
  exists st1, st2. split; [exact Hs|]. split; [exact Hb|]. split.
  - rewrite Hq. unfold delivered.
    rewrite decide_False
      by (apply (bool_decide_unpack _); vm_compute; exact I).
    by rewrite app_nil_r.
  - apply Hp; [discriminate|reflexivity].
Defined.

(** X23: the room of a user is open to every connection.  A subscribe
    request that names the room of another user is accepted like any other,
    and from then on the payment updates and notifications broadcast for
    that user are pushed to the subscriber as well. *)
Theorem user_rooms_are_open_to_any_connection
    (now t1 t2 : Z) (s : Socket) (other ty paymentId : string)
    (u notification : JsObject) (st : State) :
  let d := {| room := Some (user_room other); type := Some ty |} in
  io st = true → accepts s d = true →
  ∃ st1 st2 st3,
    handleRoomSubscription now s (Some d) st = Returned tt st1
    ∧ broadcastPaymentUpdate t1 other paymentId u st1 = Returned tt st2
    ∧ queue st2 (id s) = queue st1 (id s) ++ [payment_event t1 paymentId u]
    ∧ broadcastNotification t2 other notification st2 = Returned tt st3
    ∧ queue st3 (id s) = queue st2 (id s) ++ [notification_event t2 notification].
Proof.
  intros d Hio Hacc.
  destruct (subscription_observed now s d st Hacc)
    as (st1 & Hrun & Hmem & _ & _ & _ & _ & Hio1).
  assert (io st1 = true) as Hio' by congruence.
  assert (id s ∈ members st1 (user_room other)) as Hin.
  { rewrite Hmem. change (room_name d) with (user_room other).
    rewrite decide_True by done.
    apply elem_of_union_l. by apply elem_of_singleton_2. }
  exists st1. eexists _, _. split; [exact Hrun|].
  split; [apply (broadcastPaymentUpdate_spec _ _ _ _ _ Hio')|].
  split; [rewrite queue_after_push; unfold delivered; by rewrite decide_True|].
  split; [by apply broadcastNotification_spec|].
  rewrite queue_after_push. unfold delivered. by rewrite decide_True.
Qed.

Lemma user_rooms_are_open_to_any_connection_witness :
  let st := final (run_all
    [Initialize; Connection 1 2 dee; Connection 3 4 ada] init) in
  let d := {| room := Some (user_room "u-9"); type := Some "general" |} in
  let u : JsObject := {[ "status" := JStr "succeeded" ]} in
  let n : JsObject := {[ "title" := JStr "Receipt" ]} in
  userId dee ≠ "u-9" ∧ io st = true ∧ accepts dee d = true ∧
  ∃ st1 st2 st3,
    handleRoomSubscription 5 dee (Some d) st = Returned tt st1
    ∧ broadcastPaymentUpdate 6 "u-9" "p-3" u st1 = Returned tt st2
    ∧ queue st2 (id dee) = queue st1 (id dee) ++ [payment_event 6 "p-3" u]
    ∧ broadcastNotification 7 "u-9" n st2 = Returned tt st3
    ∧ queue st3 (id dee) = queue st2 (id dee) ++ [notification_event 7 n].
Proof.
  intros st d u n.
  assert (io st = true) as H1 by reflexivity.
  assert (accepts dee d = true) as H2 by reflexivity.
  split; [simpl; discriminate|]. split; [exact H1|]. split; [exact H2|].
  exact (user_rooms_are_open_to_any_connection 5 6 7 dee "u-9" "general" "p-3"
           u n st H1 H2).
Defined.

(** ** The list of connected users *)

Lemma admins_in_list (l : list (string * ConnInfo)) :
  length (filter (λ u, UserInfo.role u = "admin")
            ((λ entry, UserInfo.mk entry.1 (connectedAt entry.2) (role entry.2))
               <$> l))
  = length (filter (λ u, role u = "admin") (l.*2)).
Proof.
  induction l as [|[k info] l IH]; [reflexivity|]. simpl.
  destruct (decide (role info = "admin")) as [Hadm|Hadm].
  - rewrite !filter_cons_True by done. simpl. f_equal. exact IH.
  - rewrite !filter_cons_False by done. exact IH.
Qed.

(** X24: the users reported by [getConnectedUsersInfo] are the registry
    entries: every user with an entry is listed once, however many
    connections the user has, with the time and the role recorded in the
    entry; [total_connected] is the length of that list and
    [admins_online], the number of listed users whose recorded role is admin,
    never exceeds it. *)
Theorem connected_users_lists_each_user_once (st : State) :
  NoDup (UserInfo.user_id <$> connected_users st)
  ∧ (∀ u, u ∈ connected_users st ↔
          ∃ info, connectedUsers st !! UserInfo.user_id u = Some info
                  ∧ UserInfo.connected_at u = connectedAt info
                  ∧ UserInfo.role u = role info)
  ∧ getConnectedUsersInfo st
    = (length (connected_users st),
       length (filter (λ u, UserInfo.role u = "admin") (connected_users st)))
  ∧ ((getConnectedUsersInfo st).2 ≤ (getConnectedUsersInfo st).1)%nat.
Proof.
  split; [|split; [|split]].
  - unfold connected_users. rewrite <- list_fmap_compose.
    apply NoDup_fst_map_to_list.
  - intros [uid t r]. unfold connected_users. rewrite list_elem_of_fmap. split.
    + intros ([k info] & [= -> -> ->] & Hin).
      apply elem_of_map_to_list in Hin. by exists info.
    + intros (info & Hinfo & Ht & Hr). simpl in *. subst.
      exists (uid, info). split; [reflexivity|].
      by apply elem_of_map_to_list.
  - unfold getConnectedUsersInfo, connected_users.
    by rewrite admins_in_list, !length_fmap.
  - unfold getConnectedUsersInfo. simpl. apply length_filter.
Qed.

(** ** The cleanup of a connection the server holds *)

Lemma deregister_of_held_connection s st :
  id s ∈ sockets st → deregister s st = disconnect s st.
Proof.
  intros H. unfold deregister. step_handler.
  by rewrite bool_decide_eq_true_2.
Qed.

(** ** Two connections of a user, in any state *)

Lemma run_all_app l1 l2 st :
  run_all (l1 ++ l2) st
  = match run_all l1 st with
    | Returned _ st1 => run_all l2 st1
    | Thrown e st1 => Thrown e st1
    end.
Proof.
  revert st. induction l1 as [|a l1 IH]; intros st; simpl; [reflexivity|].
  unfold mbind, M_bind. destruct (run a st) as [[] st1|e st1]; [apply IH|done].
Qed.

Lemma run_keeps_io a st : io st = true → io (final (run a st)) = true.
Proof.
  intros Hio.
  destruct a as [|t1 t2 s|db now s msg|s| | | | |];
    try (match goal with
         | |- context [run ?a st] =>
             by destruct (broadcast_only_pushes a st eq_refl) as [ob ->]
         end);
    simpl run.
  - reflexivity.
  - destruct (connection_spec t1 t2 s st) as (st' & -> & Hio' & _).
    simpl. congruence.
  - destruct msg as [[d|]|[d|]|data|data|];
      try (simpl on_message; exact Hio).
    + simpl on_message. destruct (accepts s d) eqn:Hacc.
      * by rewrite (handleRoomSubscription_accepted _ _ _ _ Hacc).
      * by destruct (handleRoomSubscription_refused now s d st Hacc) as [m ->].
    + simpl on_message. destruct (truthy (room d)) eqn:Hroom.
      * by rewrite (handleRoomUnsubscription_done _ _ _ _ Hroom).
      * by rewrite (handleRoomUnsubscription_refused _ _ _ _ Hroom).
    + by destruct (data_request_only_pushes db now s
                     (GetParkingAvailability data) st I) as [ob ->].
    + by destruct (data_request_only_pushes db now s
                     (GetBookingStatus data) st I) as [ob ->].
    + by destruct (data_request_only_pushes db now s GetLiveStats st I)
        as [ob ->].
  - by rewrite disconnect_spec.
Qed.

(** A connection stays in a room through every action except its own
    unsubscribe from that room, its disconnect and a new start of the
    server. *)
Lemma run_keeps_member a st sid r :
  may_leave sid r a = false →
  sid ∈ members st r → sid ∈ members (final (run a st)) r.
Proof.
  intros Hstay Hin.
  destruct a as [|t1 t2 s|db now s msg|s| | | | |];
    try (match goal with
         | |- context [run ?a st] =>
             by destruct (broadcast_only_pushes a st eq_refl) as [ob ->]
         end);
    simpl run; try discriminate.
  - destruct (connection_members t1 t2 s st) as (st' & -> & _ & _ & Hmono).
    by apply Hmono.
  - destruct msg as [[d|]|[d|]|data|data|];
      try (simpl on_message; exact Hin).
    + simpl on_message. destruct (accepts s d) eqn:Hacc.
      * destruct (subscription_observed now s d st Hacc)
          as (st' & -> & Hmem & _). simpl. rewrite Hmem.
        destruct (decide (r = room_name d)); [|done].
        by apply elem_of_union_r.
      * by destruct (handleRoomSubscription_refused now s d st Hacc) as [m ->].
    + simpl on_message. destruct (truthy (room d)) eqn:Hroom.
      * destruct (unsubscription_observed now s d st Hroom)
          as (st' & -> & Hmem & _). simpl. rewrite Hmem.
        destruct (decide (r = room_name d)) as [->|]; [|done].
        apply elem_of_difference. split; [done|].
        rewrite elem_of_singleton. intros ->.
        simpl in Hstay. rewrite bool_decide_eq_true_2 in Hstay by done.
        simpl in Hstay. apply bool_decide_eq_false in Hstay. apply Hstay.
        unfold room_name. destruct (room d); [done|discriminate].
      * by rewrite (handleRoomUnsubscription_refused _ _ _ _ Hroom).
    + by destruct (data_request_only_pushes db now s
                     (GetParkingAvailability data) st I) as [ob ->].
    + by destruct (data_request_only_pushes db now s
                     (GetBookingStatus data) st I) as [ob ->].
    + by destruct (data_request_only_pushes db now s GetLiveStats st I)
        as [ob ->].
  - rewrite disconnect_spec. unfold members; simpl.
    rewrite omap_without_default. apply elem_of_difference. split; [done|].
    rewrite elem_of_singleton. intros ->.
    simpl in Hstay. by apply bool_decide_eq_false in Hstay.
Qed.

Lemma run_all_keeps_io l st : io st = true → io (final (run_all l st)) = true.
Proof.
  revert st. induction l as [|a l IH]; intros st Hio; [exact Hio|].
  simpl. unfold mbind, M_bind.
  pose proof (run_keeps_io a st Hio) as Ha.
  destruct (run a st) as [[] st1|e st1]; simpl in *; [by apply IH|exact Ha].
Qed.

Lemma run_all_keeps_member l st sid r :
  Forall (λ a, may_leave sid r a = false) l →
  sid ∈ members st r → sid ∈ members (final (run_all l st)) r.
Proof.
  intros Hl. revert st. induction Hl as [|a l Ha _ IH]; intros st Hin;
    [exact Hin|].
  simpl. unfold mbind, M_bind.
  pose proof (run_keeps_member a st sid r Ha Hin) as Hstep.
  destruct (run a st) as [[] st1|e st1]; simpl in *; [by apply IH|exact Hstep].
Qed.

Lemma one_entry_for_two_connections st s1 s2 :
  userId s1 = userId s2 → id s1 ≠ id s2 →
  ¬ (registered_as st s1 ∧ registered_as st s2).
Proof.
  intros Huid Hid [(i1 & H1 & E1) (i2 & H2 & E2)].
  rewrite Huid in H1. congruence.
Qed.

Lemma notification_reaches_room_member now uid n st sid :
  io st = true → sid ∈ members st (user_room uid) →
  ∃ st',
    broadcastNotification now uid n st = Returned tt st'
    ∧ queue st' sid = queue st sid ++ [notification_event now n].
Proof.
  intros Hio Hin. eexists.
  split; [apply (broadcastNotification_spec _ _ _ _ Hio)|].
  rewrite queue_after_push. unfold delivered. by rewrite decide_True.
Qed.

(** C1, amended: take two connections of one user, each of which has
    connected and has since then neither disconnected nor unsubscribed from
    the user's own room, with no new start of the server in between;
    whatever else happened before, between and after the two connects
    (other connections coming and going, subscriptions, requests,
    broadcasts), in the state reached the registry, keyed by user id, does
    not hold an entry for each of the two (it holds at most one entry for
    the user), both connections are members of the user's room, and
    [broadcastNotification] for that user appends the notification, with its
    timestamp, to the outbound queue of both. *)
Theorem two_connections_share_an_entry_and_both_are_notified
    (st0 : State) (t1 t2 t3 t4 now : Z) (s1 s2 : Socket)
    (between after : list Action) (notification : JsObject) :
  io st0 = true →
  userId s1 = userId s2 → id s1 ≠ id s2 →
  Forall (λ a, may_leave (id s1) (user_room (userId s1)) a = false)
    (between ++ after) →
  Forall (λ a, may_leave (id s2) (user_room (userId s1)) a = false) after →
  returns (run_all (Connection t1 t2 s1 :: between
                    ++ Connection t3 t4 s2 :: after) st0) = true →
  ∃ st st',
    run_all (Connection t1 t2 s1 :: between
             ++ Connection t3 t4 s2 :: after) st0 = Returned tt st
    ∧ ¬ (registered_as st s1 ∧ registered_as st s2)
    ∧ id s1 ∈ members st (user_room (userId s1))
    ∧ id s2 ∈ members st (user_room (userId s1))
    ∧ broadcastNotification now (userId s1) notification st = Returned tt st'
    ∧ queue st' (id s1) = queue st (id s1) ++ [notification_event now notification]
    ∧ queue st' (id s2) = queue st (id s2) ++ [notification_event now notification].
Proof.
  intros Hio Huid Hid Hstay1 Hstay2 Hret.
  apply Forall_app in Hstay1 as [Hbetween Hafter].
  pose proof (run_all_keeps_io
                (Connection t1 t2 s1 :: between ++ Connection t3 t4 s2 :: after)
                st0 Hio) as Hio'.
  rewrite app_comm_cons, run_all_app in Hret, Hio' |- *.
  destruct (connection_members t1 t2 s1 st0) as (sta & Hrun1 & Hin1 & _ & _).
  pose proof (run_all_keeps_member between sta _ _ Hbetween Hin1) as Hin1'.
  assert (run_all (Connection t1 t2 s1 :: between) st0 = run_all between sta)
    as Hhead.
  { simpl. unfold mbind, M_bind. by rewrite Hrun1. }
  rewrite Hhead in Hret, Hio' |- *.
  destruct (run_all between sta) as [[] stb|e stb]; [|discriminate].
  simpl in Hin1'.
  destruct (connection_members t3 t4 s2 stb) as (stc & Hrun2 & Hin2 & _ & Hmono).
  apply Hmono in Hin1'. rewrite <- Huid in Hin2.
  pose proof (run_all_keeps_member after stc _ _ Hafter Hin1') as Hin1''.
  pose proof (run_all_keeps_member after stc _ _ Hstay2 Hin2) as Hin2''.
  assert (run_all (Connection t3 t4 s2 :: after) stb = run_all after stc)
    as Htail.
  { simpl. unfold mbind, M_bind. by rewrite Hrun2. }
  rewrite Htail in Hret, Hio' |- *.
  destruct (run_all after stc) as [[] st|e st]; [|discriminate].
  simpl in Hin1'', Hin2'', Hio'.
  destruct (notification_reaches_room_member now (userId s1) notification st
              (id s1) Hio' Hin1'') as (st' & Hsend & Hq1).
  destruct (notification_reaches_room_member now (userId s1) notification st
              (id s2) Hio' Hin2'') as (st_ & Hsend' & Hq2).
  assert (st_ = st') as -> by congruence.
  exists st, st'. split; [reflexivity|].
  split; [by apply one_entry_for_two_connections|].
  done.
Qed.

Lemma two_connections_share_an_entry_and_both_are_notified_witness :
  let st0 := final (initializeWebSocket init) in
  let between :=
    [ Connection 5 6 ada;
      Message no_store 7 dee (Subscribe (Some lot_updates));
      Notification 8 "u-9" {[ "title" := JStr "Lot full" ]} ] in
  let after :=
    [ Message no_store 11 dee_phone (Subscribe (Some lot_updates));
      Message no_store 12 dee (Unsubscribe (Some lot_updates));
      Disconnect ada ] in
  let n : JsObject := {[ "title" := JStr "Booking confirmed" ]} in
  io st0 = true ∧ userId dee = userId dee_phone ∧ id dee ≠ id dee_phone ∧
  ∃ st st',
    run_all (Connection 1 2 dee :: between
             ++ Connection 9 10 dee_phone :: after) st0 = Returned tt st
    ∧ ¬ (registered_as st dee ∧ registered_as st dee_phone)
    ∧ id dee ∈ members st (user_room (userId dee))
    ∧ id dee_phone ∈ members st (user_room (userId dee))
    ∧ broadcastNotification 13 (userId dee) n st = Returned tt st'
    ∧ queue st' (id dee) = queue st (id dee) ++ [notification_event 13 n]
    ∧ queue st' (id dee_phone)
      = queue st (id dee_phone) ++ [notification_event 13 n].
Proof.
  intros st0 between after n.
  assert (io st0 = true) as H1 by reflexivity.
  assert (userId dee = userId dee_phone) as H2 by reflexivity.
  assert (id dee ≠ id dee_phone) as H3 by discriminate.
  assert (Forall (λ a, may_leave (id dee) (user_room (userId dee)) a = false)
            (between ++ after)) as H4
    by (repeat constructor).
  assert (Forall (λ a, may_leave (id dee_phone) (user_room (userId dee)) a
                       = false) after) as H5
    by (repeat constructor).
  assert (returns (run_all (Connection 1 2 dee :: between
                            ++ Connection 9 10 dee_phone :: after) st0) = true)
    as H6 by (vm_compute; reflexivity).
  split; [exact H1|]. split; [exact H2|]. split; [exact H3|].
  exact (two_connections_share_an_entry_and_both_are_notified
           st0 1 2 9 10 13 dee dee_phone between after n H1 H2 H3 H4 H5 H6).
Defined.

(** ** A cached role and the admin room *)

(** C8, on the code: the role a connection acts under is cached when it
    connects and is not read again, yet membership of the admin room does
    not wait for a reconnect.  A connection made while the user's role is
    not admin is outside the admin room after the connect; whatever the
    store says later (so also once the user has been made admin there), a
    subscribe request of this same connection for the room ["admin"] under
    any non-empty type other than ["admin"] is accepted, and the connection
    is a member of the admin room while its registry entry still carries
    the role read at the connect and the connected sockets are the same: it
    has not disconnected and connected again.  The gate that lets it in is
    the one of C2. *)
Theorem stale_role_connection_joins_admin_room_without_reconnect
    (jwt_verify : string → option string) (db0 db1 : Db)
    (t_conn t_emit now : Z) (sid : string) (token : option string)
    (s : Socket) (ty : string) (st : State) :
  authenticate jwt_verify db0 sid token = AuthOk s →
  userRole s ≠ "admin" → ty ≠ "" → ty ≠ "admin" →
  ∃ st1 st2,
    connect jwt_verify db0 t_conn t_emit sid token st = Returned (AuthOk s) st1
    ∧ members st1 "admin" = members st "admin"
    ∧ on_message db1 now s
        (Subscribe (Some {| room := Some "admin"; type := Some ty |})) st1
      = Returned tt st2
    ∧ id s ∈ members st2 "admin"
    ∧ connectedUsers st2 !! userId s = Some (registry_entry t_conn s)
    ∧ role <$> connectedUsers st2 !! userId s = Some (userRole s)
    ∧ sockets st2 = sockets st1.
Proof.
  intros Hauth Hrole Hty Hadm.
  destruct (connection_spec t_conn t_emit s st)
    as (st1 & Hrun & _ & Hreg & _ & _ & Hmem & _).
  set (d := {| room := Some "admin"; type := Some ty |}).
  assert (accepts s d = true) as Hacc.
  { unfold accepts, d; simpl.
    apply String.eqb_neq in Hty. rewrite Hty. simpl.
    rewrite bool_decide_eq_false_2 by congruence. reflexivity. }
  destruct (subscription_observed now s d st1 Hacc)
    as (st2 & Hsub & Hmem2 & _ & _ & Hreg2 & Hsock & _).
  exists st1, st2. split.
  { unfold connect. rewrite Hauth. unfold mbind, M_bind. by rewrite Hrun. }
  split.
  { rewrite Hmem. rewrite decide_False; [done|].
    intros [E|[_ E]]; [by apply (admin_is_no_user_room (userId s))|done]. }
  split; [exact Hsub|].
  split.
  { rewrite Hmem2. change (room_name d) with "admin".
    rewrite decide_True by done.
    apply elem_of_union_l. by apply elem_of_singleton_2. }
  rewrite Hreg2, Hreg, lookup_insert_eq. done.
Qed.

Lemma stale_role_connection_joins_admin_room_without_reconnect_witness :
  let st := final (run_all [Initialize; Connection 1 2 ada] init) in
  authenticate sample_verify sample_store "sock-1" (Some "tok:u-1") = AuthOk dee
  ∧ userRole dee ≠ "admin"
  ∧ (row_role <$> users promoted_store !! userId dee) = Some "admin"
  ∧ ∃ st1 st2,
      connect sample_verify sample_store 3 4 "sock-1" (Some "tok:u-1") st
      = Returned (AuthOk dee) st1
      ∧ members st1 "admin" = members st "admin"
      ∧ on_message promoted_store 5 dee
          (Subscribe (Some {| room := Some "admin"; type := Some "parking" |}))
          st1
        = Returned tt st2
      ∧ id dee ∈ members st2 "admin"
      ∧ connectedUsers st2 !! userId dee = Some (registry_entry 3 dee)
      ∧ role <$> connectedUsers st2 !! userId dee = Some (userRole dee)
      ∧ sockets st2 = sockets st1.
Proof.
  intros st.
  assert (authenticate sample_verify sample_store "sock-1" (Some "tok:u-1")
          = AuthOk dee) as H1 by reflexivity.
  assert (userRole dee ≠ "admin") as H2 by (simpl; discriminate).
  assert ("parking" ≠ "") as H3 by discriminate.
  assert ("parking" ≠ "admin") as H4 by discriminate.
  split; [exact H1|]. split; [exact H2|]. split; [reflexivity|].
  exact (stale_role_connection_joins_admin_room_without_reconnect
           sample_verify sample_store promoted_store 3 4 5 "sock-1"
           (Some "tok:u-1") dee "parking" st H1 H2 H3 H4).
Defined.
